(** * The ledger component of finapp (MontlyExp), embedded and verified

    The repository is a React/TypeScript front end.  Its ledger page keeps
    a list of dated income/expense rows, computes a running balance and
    stores the rows either behind a remote endpoint (`sheetUrl`) or in
    `localStorage`.  This file embeds the page's logic

    - `persistLocal`, `loadLocal`
    - `fetchData` and the balance computation inside its `map`
    - `handleSubmit`, `handleDelete`, `downloadExcel`
    - the summaries `totalIn`, `totalOut`, `currentBalance`

    as Rocq functions over an explicit world (React state, local storage,
    remote sheet, the trace of effects), and proves the properties the
    specification states about them.

    Numbers.  In the world of the page a JavaScript number is an exact
    integer or NaN, [Js.number]: enough for what the page does with its
    rows, and silent on rounding.  The sums of the page are therefore
    embedded a second time on IEEE 754 binary64, [Binary64], over the
    Standard Library's specification of floating-point arithmetic; what
    is stated about the value of a sum is stated there, with the range
    in which the two embeddings agree.

    Built-ins.  What the page takes from the JavaScript runtime
    (`String.prototype.toUpperCase`, `Number` on strings, number printing,
    `JSON`, `Date`, the storage quota) is an interface, [Runtime]; every
    theorem holds for each implementation of it.  One implementation over
    ASCII text, [ascii_runtime], is given to run the examples. *)

From Stdlib Require Import ZArith Ascii String.
From Stdlib Require SpecFloat.
From stdpp Require Import base option list strings gmap.

Local Open Scope string_scope.
Local Open Scope list_scope.
Local Open Scope stdpp_scope.

(** ** JavaScript values used by the page *)

Module Js.

(** A JavaScript number in the world of the page: an exact integer, or
    NaN.  It has no fraction and no infinity, and [add] and [sub] below
    are exact where `+=` and `-=` on doubles round; what depends on the
    value of a sum is stated on [Binary64]. *)
Inductive number : Type :=
| Num (z : Z)
| NaN.

Definition add (a b : number) : number :=
  match a, b with
  | Num x, Num y => Num (x + y)
  | _, _ => NaN
  end.

Definition sub (a b : number) : number :=
  match a, b with
  | Num x, Num y => Num (x - y)
  | _, _ => NaN
  end.

Definition neg (a : number) : number :=
  match a with
  | Num x => Num (- x)
  | NaN => NaN
  end.

(** ToBoolean on numbers: 0 and NaN are falsy. *)
Definition truthy (n : number) : bool :=
  match n with
  | Num z => negb (z =? 0)%Z
  | NaN => false
  end.

(** [n || 0] *)
Definition or_zero (n : number) : number :=
  if truthy n then n else Num 0.

(** [n === 0] *)
Definition is_zero (n : number) : bool :=
  match n with
  | Num z => (z =? 0)%Z
  | NaN => false
  end.

(** ToBoolean on strings: only the empty string is falsy. *)
Definition truthy_string (s : string) : bool :=
  negb (String.eqb s "").

End Js.

Export Js.

(** ** The data model

    [type Row = { date; name; description; type: string;
                  amount: number | string; balance?: number }] *)

Inductive Amount : Type :=
| AmtNum (n : number)
| AmtStr (s : string).

Record Row : Type := mkRow {
  date : string;
  name : string;
  description : string;
  type : string;
  amount : Amount;
  balance : option number
}.

(** [const empty: Row] *)
Definition empty : Row :=
  {| date := ""; name := ""; description := ""; type := "OUT";
     amount := AmtStr ""; balance := None |}.

(** [const LS_KEY] *)
Definition LS_KEY : string := "milkdiary_finance_rows_v1".

(** ** The runtime interface *)

Class Runtime : Type := {
  (** [String.prototype.toUpperCase] *)
  toUpperCase : string → string;
  (** [Number(s)] for a string [s]; NaN when [s] is not numeric *)
  StringToNumber : string → number;
  (** [String(n)] and template interpolation of a number *)
  NumberToString : number → string;
  (** [JSON.stringify] on an array of rows *)
  JSON_stringify : list Row → string;
  (** [JSON.parse], typed as the page types it ([Row[]]);
      [None] when it throws *)
  JSON_parse : string → option (list Row);
  (** [new Date(s)] followed by [toLocaleDateString('en-GB', ...)];
      [None] when the date is invalid ([isNaN(dt.getTime())]) *)
  toLocaleDateString : string → option string;
  (** whether [localStorage.setItem(k, v)] returns normally
      (it throws when the quota is exceeded) *)
  setItem_ok : string → string → bool;
  (** [JSON.parse] throws on the empty text *)
  JSON_parse_empty : JSON_parse "" = None
}.

(** ** Normalisation: the `map` of fetchData *)

Section Normalizer.
Context `{Runtime}.

(** [Number(x)] for [x : number | string] *)
Definition Number (a : Amount) : number :=
  match a with
  | AmtNum n => n
  | AmtStr s => StringToNumber s
  end.

(** [s || ''] *)
Definition or_empty (s : string) : string :=
  if truthy_string s then s else "".

(** The callback handed to `map`.  It reads and writes the variable
    [bal] of the enclosing scope, which is threaded here: the callback
    takes the value of [bal] before the row and returns the value after
    it, with the row it emits.

    [[
      const amt = Number(r.amount) || 0;
      const type = (r.type || '').toUpperCase();
      if (type === 'IN') bal += amt;
      else if (type === 'OUT') bal -= amt;
      return { ...r, amount: amt, balance: bal };
    ]] *)
Definition normalize_row (bal : number) (r : Row) : number * Row :=
  let amt := or_zero (Number (amount r)) in
  let type_ := toUpperCase (or_empty (type r)) in
  let bal :=
    if String.eqb type_ "IN" then add bal amt
    else if String.eqb type_ "OUT" then sub bal amt
    else bal in
  (bal, {| date := date r; name := name r; description := description r;
           type := type r; amount := AmtNum amt; balance := Some bal |}).

(** [Array.prototype.map] with a callback that updates a captured
    variable: the rows are visited from index 0 upwards. *)
Fixpoint map_with {S A B : Type} (f : S → A → S * B) (s : S) (l : list A)
  : list B :=
  match l with
  | [] => []
  | x :: l' => let '(s', y) := f s x in y :: map_with f s' l'
  end.

(** [let bal = 0; const normalized = data.map(...)] *)
Definition normalize (data : list Row) : list Row :=
  map_with normalize_row (Num 0) data.

(** The summaries of the page, computed from the rows on display. *)

(** [rows.reduce((s, r) => s + (r.type === 'IN' ? Number(r.amount) : 0), 0)] *)
Definition totalIn (rows : list Row) : number :=
  foldl
    (λ s r, add s (if String.eqb (type r) "IN" then Number (amount r) else Num 0))
    (Num 0) rows.

(** [rows.reduce((s, r) => s + (r.type === 'OUT' ? Number(r.amount) : 0), 0)] *)
Definition totalOut (rows : list Row) : number :=
  foldl
    (λ s r, add s (if String.eqb (type r) "OUT" then Number (amount r) else Num 0))
    (Num 0) rows.

(** [balance || 0] where [balance] may be undefined *)
Definition balance_or_zero (b : option number) : number :=
  match b with
  | Some n => or_zero n
  | None => Num 0
  end.

(** [rows.length ? rows[0].balance || 0 : 0] *)
Definition currentBalance (rows : list Row) : number :=
  match rows with
  | [] => Num 0
  | r :: _ => balance_or_zero (balance r)
  end.

(** *** The specification's reading of the fold *)

(** The amount of an entry after coercion. *)
Definition coerced_amount (r : Row) : number :=
  or_zero (Number (amount r)).

(** The type of an entry as it is compared: in upper case. *)
Definition entry_kind (r : Row) : string :=
  toUpperCase (type r).

(** `signedAmount`: [+amount] for IN, [-amount] for OUT, 0 otherwise. *)
Definition signedAmount (r : Row) : number :=
  if String.eqb (entry_kind r) "IN" then coerced_amount r
  else if String.eqb (entry_kind r) "OUT" then neg (coerced_amount r)
  else Num 0.

(** The balance that precedes position [i] of a normalised sequence:
    0 in front of the first entry, the balance of entry [i-1] after. *)
Definition balance_before (out : list Row) (i : nat) : number :=
  match i with
  | O => Num 0
  | S j => default (Num 0) (out !! j ≫= balance)
  end.

(** The annotated entry: a copy of the entry with its amount coerced
    and the balance that follows [previous]. *)
Definition annotate (previous : number) (r : Row) : Row :=
  {| date := date r; name := name r; description := description r;
     type := type r; amount := AmtNum (coerced_amount r);
     balance := Some (add previous (signedAmount r)) |}.

(** The raw projection of an annotated entry: the entry without its
    balance. *)
Definition raw_entry (r : Row) : Row :=
  {| date := date r; name := name r; description := description r;
     type := type r; amount := amount r; balance := None |}.

(** Sum of the coerced amounts of the entries of a given kind. *)
Definition sum_of_kind (kind : string) (raw : list Row) : Z :=
  foldr
    (λ r acc,
       if String.eqb (entry_kind r) kind
       then match coerced_amount r with Num z => z + acc | NaN => acc end
       else acc)%Z
    0%Z raw.

End Normalizer.

(** ** The arithmetic of the page on IEEE 754 doubles

    The numbers of JavaScript are binary64 floating-point numbers.  The
    sums of the page are embedded here a second time, on the Standard
    Library's specification of binary64 ([SpecFloat], 53 bits of
    precision, round to nearest even), to state what the exact model
    above cannot: where the sums round. *)

Module Binary64.

Definition double : Type := SpecFloat.spec_float.

Definition zero : double := SpecFloat.S754_zero false.

(** [x + y] and [x - y] *)
Definition add (x y : double) : double := SpecFloat.SFadd 53 1024 x y.
Definition sub (x y : double) : double := SpecFloat.SFsub 53 1024 x y.

(** The double nearest to an integer: the value of an integer literal. *)
Definition of_Z (z : Z) : double := SpecFloat.binary_normalize 53 1024 z 0 false.

(** ToBoolean: the zeros and NaN are falsy. *)
Definition truthy (d : double) : bool :=
  match d with
  | SpecFloat.S754_zero _ | SpecFloat.S754_nan => false
  | _ => true
  end.

(** [d || 0] *)
Definition or_zero (d : double) : double := if truthy d then d else zero.

(** A number of the exact model as a double. *)
Definition of_number (n : number) : double :=
  match n with
  | Num z => of_Z z
  | NaN => SpecFloat.S754_nan
  end.

Section Sums.
Context `{Runtime}.

(** [const amt = Number(r.amount) || 0] *)
Definition amt (r : Row) : double := or_zero (of_number (Number (amount r))).

(** The update of [bal] in the callback of `map`:
    [[
      if (type === 'IN') bal += amt;
      else if (type === 'OUT') bal -= amt;
    ]] *)
Definition step (bal : double) (r : Row) : double :=
  let type_ := toUpperCase (or_empty (type r)) in
  if String.eqb type_ "IN" then add bal (amt r)
  else if String.eqb type_ "OUT" then sub bal (amt r)
  else bal.

(** The balances the `map` writes into the rows, oldest first. *)
Definition balances (raw : list Row) : list double :=
  map_with (λ bal r, let bal := step bal r in (bal, bal)) zero raw.

(** [rows.length ? rows[0].balance || 0 : 0] on the reversed list. *)
Definition currentBalance (raw : list Row) : double :=
  match reverse (balances raw) with
  | [] => zero
  | b :: _ => or_zero b
  end.

(** The reduce of totalIn and totalOut over the rows on display (newest
    first), whose amount is [amt] and whose type is the raw type. *)
Definition total (kind : string) (raw : list Row) : double :=
  foldl (λ s r, add s (if String.eqb (type r) kind then amt r else zero))
        zero (reverse raw).

Definition totalIn (raw : list Row) : double := total "IN" raw.
Definition totalOut (raw : list Row) : double := total "OUT" raw.

End Sums.
End Binary64.

(** *** Where doubles are exact *)

Section ExactRange.
Context `{Runtime}.

(** An integer that a double holds without rounding, together with all
    integers between it and 0. *)
Definition safe_integer (z : Z) : Prop := (Z.abs z ≤ 2 ^ 53)%Z.

(** The coerced amount as an integer. *)
Definition amount_value (r : Row) : Z :=
  match coerced_amount r with
  | Num z => z
  | NaN => 0%Z
  end.

(** What the entry adds to the balance, as an integer. *)
Definition signed_value (r : Row) : Z :=
  if String.eqb (entry_kind r) "IN" then amount_value r
  else if String.eqb (entry_kind r) "OUT" then (- amount_value r)%Z
  else 0%Z.

(** The balances in exact arithmetic, from the balance [bal]. *)
Fixpoint running_sums (bal : Z) (raw : list Row) : list Z :=
  match raw with
  | [] => []
  | r :: raw' => (bal + signed_value r)%Z :: running_sums (bal + signed_value r) raw'
  end.

(** No sum of the fold leaves the range in which doubles are exact. *)
Definition exact_arithmetic (raw : list Row) : Prop :=
  Forall (λ r, safe_integer (signed_value r)) raw
  ∧ Forall safe_integer (running_sums 0 raw).

(** The sum of the magnitudes of the amounts that count. *)
Definition absolute_total (raw : list Row) : Z :=
  foldr (λ r acc, Z.abs (signed_value r) + acc)%Z 0%Z raw.

End ExactRange.

(** ** The world the page runs in *)

(** The fields of a `FormData`, in the order they are appended. *)
Definition FormData : Type := list (string * string).

(** What the page does to its surroundings, in the order it does it. *)
Inductive Effect : Type :=
| SwalFire (title text icon : string)
| SwalConfirm (title text : string)
| GetItem (key : string)
| SetItem (key value : string)
| Fetch (url : string) (body : option FormData)
| Download (filename content : string).

(** Storage and network effects, as opposed to dialogs. *)
Definition is_io (e : Effect) : bool :=
  match e with
  | GetItem _ | SetItem _ _ | Fetch _ _ => true
  | _ => false
  end.

(** Notifications by their severity tag. *)
Definition is_notification (icon : string) (e : Effect) : bool :=
  match e with
  | SwalFire _ _ i => String.eqb i icon
  | _ => false
  end.

(** How a `fetch` ends: the promise rejects (transport failure), or it
    resolves to a response with its `ok` flag and its body. *)
Inductive FetchResult : Type :=
| Rejects
| Resolves (ok : bool) (body : string).

(** - [rows], [form], [submitting]: the state of the component;
    - [localStorage]: the browser's key-value store;
    - [sheet]: the entries the remote endpoint has recorded;
    - [trace]: the effects so far, oldest first. *)
Record World : Type := mkWorld {
  rows : list Row;
  form : Row;
  submitting : bool;
  localStorage : gmap string string;
  sheet : list FormData;
  trace : list Effect
}.

Definition setRows (l : list Row) (w : World) : World :=
  {| rows := l; form := form w; submitting := submitting w;
     localStorage := localStorage w; sheet := sheet w; trace := trace w |}.

Definition setForm (f : Row) (w : World) : World :=
  {| rows := rows w; form := f; submitting := submitting w;
     localStorage := localStorage w; sheet := sheet w; trace := trace w |}.

Definition setSubmitting (b : bool) (w : World) : World :=
  {| rows := rows w; form := form w; submitting := b;
     localStorage := localStorage w; sheet := sheet w; trace := trace w |}.

Definition setLocalStorage (m : gmap string string) (w : World) : World :=
  {| rows := rows w; form := form w; submitting := submitting w;
     localStorage := m; sheet := sheet w; trace := trace w |}.

Definition setSheet (s : list FormData) (w : World) : World :=
  {| rows := rows w; form := form w; submitting := submitting w;
     localStorage := localStorage w; sheet := s; trace := trace w |}.

Definition perform (e : Effect) (w : World) : World :=
  {| rows := rows w; form := form w; submitting := submitting w;
     localStorage := localStorage w; sheet := sheet w;
     trace := trace w ++ [e] |}.

(** An empty ledger on first render. *)
Definition initial : World :=
  {| rows := []; form := empty; submitting := false;
     localStorage := ∅; sheet := []; trace := [] |}.

(** Modelled from the spec: the endpoint behind `sheetUrl` is a service
    outside the repository.  The specification describes it as a sink
    that does not compute anything and reports success by an OK status:
    it has recorded the posted entry exactly when the request resolved
    with `ok`. *)
Definition remote_append (fd : FormData) (r : FetchResult) (w : World) : World :=
  match r with
  | Resolves true _ => setSheet (sheet w ++ [fd]) w
  | _ => w
  end.

(** ** The page *)

Section MontlyExp.
Context `{Runtime}.

(** [import.meta.env.VITE_FINANCE_SHEET_URL]: absent, or a text. *)
Variable sheetUrl : option string.

(** The endpoint when [sheetUrl] is truthy; [None] stands for
    [!sheetUrl]. *)
Definition endpoint : option string :=
  match sheetUrl with
  | Some u => if truthy_string u then Some u else None
  | None => None
  end.

(** [[
      const formatDate = (d: any) => {
        if (!d && d !== 0) return '';
        const s = String(d);
        const dt = new Date(s);
        if (isNaN(dt.getTime())) return s;
        return dt.toLocaleDateString('en-GB', {...});
      };
    ]] on the texts a [Row] holds as its date. *)
Definition formatDate (d : string) : string :=
  if negb (truthy_string d) then ""
  else match toLocaleDateString d with
       | None => d
       | Some shown => shown
       end.

(** [[
      try { localStorage.setItem(LS_KEY, JSON.stringify(data)); }
      catch (e) { /* ignore */ }
    ]] *)
Definition persistLocal (data : list Row) (w : World) : World :=
  let value := JSON_stringify data in
  let w := perform (SetItem LS_KEY value) w in
  if setItem_ok LS_KEY value
  then setLocalStorage (<[LS_KEY := value]> (localStorage w)) w
  else w.

(** [[
      try {
        const raw = localStorage.getItem(LS_KEY);
        if (!raw) return [];
        return JSON.parse(raw);
      } catch (e) { return []; }
    ]] *)
Definition loadLocal (w : World) : list Row * World :=
  let w := perform (GetItem LS_KEY) w in
  match localStorage w !! LS_KEY with
  | None => ([], w)
  | Some raw =>
      if negb (truthy_string raw) then ([], w)
      else match JSON_parse raw with
           | Some data => (data, w)
           | None => ([], w)
           end
  end.

(** The three places of fetchData that read the local store:
    [[
      const local = loadLocal();
      let bal = 0;
      const normalized = local.map(...);
      setRows(normalized.reverse());
    ]] *)
Definition load_from_local (w : World) : World :=
  let '(local, w) := loadLocal w in
  setRows (reverse (normalize local)) w.

(** [[
      if (!sheetUrl) { ...local...; return; }
      try {
        const res = await fetch(sheetUrl);
        const data = await res.json();
        let bal = 0;
        const normalized = data.map(...);
        setRows(normalized.reverse());
      } catch (e) { ...local... }
    ]]
    [get] is how the request ends. *)
Definition fetchData (get : FetchResult) (w : World) : World :=
  match endpoint with
  | None => load_from_local w
  | Some url =>
      let w := perform (Fetch url None) w in
      match get with
      | Rejects => load_from_local w
      | Resolves _ body =>
          match JSON_parse body with
          | None => load_from_local w
          | Some data => setRows (reverse (normalize data)) w
          end
      end
  end.

(** [!form.date || form.amount === '' || form.amount === 0] *)
Definition rejected (f : Row) : bool :=
  negb (truthy_string (date f))
  || match amount f with
     | AmtStr s => String.eqb s ""
     | AmtNum n => is_zero n
     end.

(** [rows.length ? rows[0].balance || 0 : 0] followed by
    [[
      if (form.type === 'IN') newBalance += Number(form.amount);
      else if (form.type === 'OUT') newBalance -= Number(form.amount);
    ]] *)
Definition newBalance (rs : list Row) (f : Row) : number :=
  let lastBalance := currentBalance rs in
  if String.eqb (type f) "IN" then add lastBalance (Number (amount f))
  else if String.eqb (type f) "OUT" then sub lastBalance (Number (amount f))
  else lastBalance.

(** [{ ...form, amount: Number(form.amount), balance: newBalance }] *)
Definition newRow (rs : list Row) (f : Row) : Row :=
  {| date := date f; name := name f; description := description f;
     type := type f; amount := AmtNum (Number (amount f));
     balance := Some (newBalance rs f) |}.

(** [String(x)] for [x : number | string] *)
Definition String_of_amount (a : Amount) : string :=
  match a with
  | AmtNum n => NumberToString n
  | AmtStr s => s
  end.

(** The `FormData` of the POST. *)
Definition form_data (rs : list Row) (f : Row) : FormData :=
  [ ("date", date f); ("name", name f); ("description", description f);
    ("type", type f); ("amount", String_of_amount (amount f));
    ("balance", NumberToString (newBalance rs f)) ].

(** handleSubmit.  [post] is how the POST ends and [get] how the GET of
    the reload that follows a successful POST ends.  The reload is
    started without `await`: its request leaves before the `finally`
    block runs and its result arrives after. *)
Definition handleSubmit (post get : FetchResult) (w : World) : World :=
  let f := form w in
  if rejected f then
    perform (SwalFire "Required" "Date & amount are required" "warning") w
  else
    let w1 := setSubmitting true w in
    let row := newRow (rows w) f in
    match endpoint with
    | None =>
        let updated := row :: rows w in
        let w2 := persistLocal (reverse updated) w1 in
        let w3 := setRows updated w2 in
        let w4 := perform (SwalFire "Saved" "Transaction added (local)" "success") w3 in
        let w5 := setForm empty w4 in
        setSubmitting false w5
    | Some url =>
        let fd := form_data (rows w) f in
        let w2 := remote_append fd post (perform (Fetch url (Some fd)) w1) in
        match post with
        | Rejects =>
            setSubmitting false
              (perform (SwalFire "Error" "Something went wrong" "error") w2)
        | Resolves false _ =>
            setSubmitting false
              (perform (SwalFire "Error" "Failed to save data" "error") w2)
        | Resolves true _ =>
            let w3 := perform (SwalFire "Saved" "Transaction added" "success") w2 in
            let w4 := setForm empty w3 in
            setSubmitting false (fetchData get w4)
        end
    end.

(** The text of the confirmation dialog:
    [`${formatDate(r.date)} · ${r.description} · ₹${r.amount}`] *)
Definition delete_text (r : Row) : string :=
  formatDate (date r) +:+ " · " +:+ description r +:+ " · ₹"
  +:+ String_of_amount (amount r).

(** handleDelete.  [confirmed] is the answer of the dialog
    ([res.isConfirmed]).  When [rows[index]] is undefined, reading
    [r.date] throws before anything happens: [None]. *)
Definition handleDelete (index : nat) (confirmed : bool) (w : World)
  : option World :=
  match rows w !! index with
  | None => None
  | Some r =>
      let w1 := perform (SwalConfirm "Delete entry?" (delete_text r)) w in
      if negb confirmed then Some w1
      else
        let updated := take index (rows w) ++ drop (S index) (rows w) in
        let w2 := setRows updated w1 in
        let w3 := persistLocal (reverse updated) w2 in
        Some (perform (SwalFire "Deleted" "Entry removed (local)" "success") w3)
  end.

(** *** The specification's reading of the operations *)


(** A read fails: the transport fails, or the body is not JSON. *)
Definition read_fails (get : FetchResult) : bool :=
  match get with
  | Rejects => true
  | Resolves _ body => bool_decide (JSON_parse body = None)
  end.

(** A write fails: the transport fails, or the status is not OK. *)
Definition write_fails (post : FetchResult) : bool :=
  match post with
  | Rejects => true
  | Resolves ok _ => negb ok
  end.

End MontlyExp.

(** ** The CSV export *)

Section Exporter.
Context `{Runtime}.

Definition dquote : ascii := "034"%char.
Definition comma : ascii := ","%char.
Definition newline : string := String "010"%char "".

(** [text.replace(/DQ/g, DQ DQ)], DQ the double quote character: every
    occurrence is replaced by two. *)
Fixpoint replace_dquotes (text : string) : string :=
  match text with
  | EmptyString => EmptyString
  | String c rest =>
      if Ascii.eqb c dquote
      then String dquote (String dquote (replace_dquotes rest))
      else String c (replace_dquotes rest)
  end.

(** [text.replace(/,$/, '')]: the pattern matches a comma that is the
    last character of the text. *)
Fixpoint replace_trailing_comma (text : string) : string :=
  match text with
  | EmptyString => EmptyString
  | String c rest =>
      match rest with
      | EmptyString => if Ascii.eqb c comma then EmptyString else text
      | String _ _ => String c (replace_trailing_comma rest)
      end
  end.

(** One text cell.  The template literal puts [String(x)], with its
    quotes replaced, between two double quotes and adds a comma; the
    outer [.replace(/,$/, '')] is then applied to the whole. *)
Definition csv_text (x : string) : string :=
  replace_trailing_comma
    (String dquote (replace_dquotes x +:+ String dquote (String comma ""))).

(** [Number(r.balance)], where an absent balance is undefined. *)
Definition Number_of_balance (b : option number) : number :=
  match b with
  | Some n => n
  | None => NaN
  end.

(** [Array.prototype.join] *)
Fixpoint join (sep : string) (l : list string) : string :=
  match l with
  | [] => ""
  | x :: l' =>
      match l' with
      | [] => x
      | _ :: _ => x +:+ sep +:+ join sep l'
      end
  end.

Definition headers : list string :=
  ["Date"; "Name"; "Description"; "Type"; "Amount"; "Balance"].

(** The array built for one row, joined by commas. *)
Definition csv_row (r : Row) : string :=
  join ","
    [ csv_text (formatDate (date r));
      csv_text (or_empty (name r));
      csv_text (or_empty (description r));
      csv_text (type r);
      NumberToString (Number (amount r));
      NumberToString (Number_of_balance (balance r)) ].

(** [const csvRows = [headers.join(','), ...rows.map(r => ...)]] *)
Definition csvRows (rs : list Row) : list string :=
  join "," headers :: map csv_row rs.

(** The text handed to the `Blob`: [csvRows.join] with a line feed. *)
Definition csv_blob (rs : list Row) : string :=
  join newline (csvRows rs).

(** downloadExcel: the blob is offered as `finance-tracker.csv`. *)
Definition downloadExcel (w : World) : World :=
  perform (Download "finance-tracker.csv" (csv_blob (rows w))) w.

(** *** The format as the specification words it

    Written with the characters themselves (34 is the double quote, 10
    the line feed), not with the constants of the code above. *)

(** Internal quote characters escaped by doubling. *)
Definition escape_by_doubling (text : string) : string :=
  string_of_list_ascii
    (concat (map (λ c, if Ascii.eqb c "034" then ["034"; "034"]%char else [c])
                 (list_ascii_of_string text))).

(** A text field wrapped in double quotes. *)
Definition quoted (text : string) : string :=
  String "034" (escape_by_doubling text) +:+ String "034" "".

(** Reading an escaped text back: a doubled quote stands for one quote, a
    single one is an error. *)
Fixpoint undouble (text : string) : option string :=
  match text with
  | EmptyString => Some EmptyString
  | String c rest =>
      if Ascii.eqb c "034" then
        match rest with
        | String c' rest' =>
            if Ascii.eqb c' "034" then String "034" <$> undouble rest'
            else None
        | EmptyString => None
        end
      else String c <$> undouble rest
  end.

Definition header_line : string := "Date,Name,Description,Type,Amount,Balance".

(** One line per row: four quoted text fields, two bare numbers. *)
Definition row_line (r : Row) : string :=
  quoted (formatDate (date r)) +:+ "," +:+
  quoted (name r) +:+ "," +:+
  quoted (description r) +:+ "," +:+
  quoted (type r) +:+ "," +:+
  NumberToString (Number (amount r)) +:+ "," +:+
  NumberToString (Number_of_balance (balance r)).

(** The header line, then each row on a line of its own: every row
    line follows a line feed. *)
Definition csv_format (rs : list Row) : string :=
  header_line
  +:+ String.concat "" (map (λ r, String "010" "" +:+ row_line r) rs).

End Exporter.

(** ** A runtime over ASCII text

    An implementation of [Runtime] that computes: upper case on the
    letters a-z, decimal integer literals as numbers, JSON for arrays of
    rows, ISO dates.  It agrees with JavaScript on these; what lies
    outside (other scripts, fractions, exponents) is not covered by it.
    The theorems do not depend on it; the examples run on it. *)

Module AsciiRuntime.

Definition upper_char (c : ascii) : ascii :=
  let n := nat_of_ascii c in
  if (97 <=? n)%nat && (n <=? 122)%nat then ascii_of_nat (n - 32) else c.

Fixpoint upper (s : string) : string :=
  match s with
  | EmptyString => EmptyString
  | String c s' => String (upper_char c) (upper s')
  end.

Definition digit_value (c : ascii) : option Z :=
  let n := nat_of_ascii c in
  if (48 <=? n)%nat && (n <=? 57)%nat then Some (Z.of_nat (n - 48)) else None.

(** The value of a non-empty run of digits that fills the text. *)
Fixpoint digits_value (acc : Z) (s : string) : option Z :=
  match s with
  | EmptyString => None
  | String c s' =>
      match digit_value c with
      | None => None
      | Some d =>
          match s' with
          | EmptyString => Some (10 * acc + d)%Z
          | String _ _ => digits_value (10 * acc + d)%Z s'
          end
      end
  end.

(** [Number(s)] on the texts this runtime covers: the empty text is 0
    and a signed decimal integer literal is its value.  Every other
    text is answered NaN, also the texts JavaScript reads as numbers
    that [number] has no value for or that this reader does not know:
    fractions, exponents, Infinity, hexadecimal, surrounding white
    space. *)
Definition number_of_string (s : string) : number :=
  match s with
  | EmptyString => Num 0
  | String c s' =>
      if Ascii.eqb c "-" then
        match digits_value 0 s' with Some z => Num (- z) | None => NaN end
      else if Ascii.eqb c "+" then
        match digits_value 0 s' with Some z => Num z | None => NaN end
      else
        match digits_value 0 s with Some z => Num z | None => NaN end
  end.

Definition digit_char (d : N) : ascii :=
  ascii_of_N (48 + d).

(** The decimal digits of [n], most significant first; [fuel] bounds
    their number. *)
Fixpoint digits_of (fuel : nat) (n : N) (acc : string) : string :=
  match fuel with
  | O => acc
  | S fuel' =>
      let acc' := String (digit_char (n mod 10)) acc in
      if (n <? 10)%N then acc' else digits_of fuel' (n / 10) acc'
  end.

Definition string_of_N (n : N) : string :=
  digits_of (S (N.to_nat (N.log2 n))) n "".

(** [String(n)] *)
Definition string_of_number (n : number) : string :=
  match n with
  | NaN => "NaN"
  | Num z =>
      if (z <? 0)%Z then String "-" (string_of_N (Z.abs_N z))
      else string_of_N (Z.abs_N z)
  end.

(** *** JSON text for arrays of rows *)

Definition backslash : ascii := "092"%char.

Definition hex_char (d : N) : ascii :=
  if (d <? 10)%N then ascii_of_N (48 + d) else ascii_of_N (87 + d).

(** One character inside a JSON string, as `JSON.stringify` writes it. *)
Definition json_char (c : ascii) : string :=
  let n := N_of_ascii c in
  if Ascii.eqb c dquote then String backslash (String dquote "")
  else if Ascii.eqb c backslash then String backslash (String backslash "")
  else if (n =? 8)%N then String backslash "b"
  else if (n =? 9)%N then String backslash "t"
  else if (n =? 10)%N then String backslash "n"
  else if (n =? 12)%N then String backslash "f"
  else if (n =? 13)%N then String backslash "r"
  else if (n <? 32)%N then
    String backslash
      (String "u" (String "0" (String "0"
         (String (hex_char (n / 16)) (String (hex_char (n mod 16)) "")))))
  else String c "".

Fixpoint json_chars (s : string) : string :=
  match s with
  | EmptyString => EmptyString
  | String c s' => json_char c +:+ json_chars s'
  end.

Definition json_string (s : string) : string :=
  String dquote (json_chars s +:+ String dquote "").

(** A number as JSON writes it: NaN becomes `null`. *)
Definition json_number (n : number) : string :=
  match n with
  | NaN => "null"
  | Num _ => string_of_number n
  end.

Definition json_amount (a : Amount) : string :=
  match a with
  | AmtNum n => json_number n
  | AmtStr s => json_string s
  end.

Definition json_member (key value : string) : string :=
  json_string key +:+ ":" +:+ value.

(** An object with the properties in the order the page creates them;
    an undefined balance is left out. *)
Definition json_row (r : Row) : string :=
  "{" +:+ join ","
    ([ json_member "date" (json_string (date r));
       json_member "name" (json_string (name r));
       json_member "description" (json_string (description r));
       json_member "type" (json_string (type r));
       json_member "amount" (json_amount (amount r)) ]
     ++ match balance r with
        | Some b => [ json_member "balance" (json_number b) ]
        | None => []
        end)
  +:+ "}".

Definition stringify (data : list Row) : string :=
  "[" +:+ join "," (map json_row data) +:+ "]".

(** Reading JSON text: first the tokens, then the array of objects. *)

Inductive token : Type :=
| TOpenArray | TCloseArray | TOpenObject | TCloseObject
| TComma | TColon
| TString (s : string)
| TNumber (z : Z)
| TNull.

(** Where the tokenizer is: between tokens, inside a string (after a
    backslash, inside a `\u` escape), inside a number, inside a word. *)
Inductive lex_mode : Type :=
| Idle
| InString (acc : list ascii)
| Escaped (acc : list ascii)
| Unicode (acc : list ascii) (remaining : nat) (value : N)
| InNumber (negative : bool) (digits : option Z)
| InWord (acc : list ascii).

Definition text_of (acc : list ascii) : string :=
  string_of_list_ascii (reverse acc).

Definition hex_value (c : ascii) : option N :=
  let n := N_of_ascii c in
  if (48 <=? n)%N && (n <=? 57)%N then Some (n - 48)%N
  else if (97 <=? n)%N && (n <=? 102)%N then Some (n - 87)%N
  else if (65 <=? n)%N && (n <=? 70)%N then Some (n - 55)%N
  else None.

(** The character an escape letter stands for. *)
Definition unescape (c : ascii) : option ascii :=
  if Ascii.eqb c dquote then Some dquote
  else if Ascii.eqb c backslash then Some backslash
  else if Ascii.eqb c "/" then Some "/"%char
  else if Ascii.eqb c "b" then Some "008"%char
  else if Ascii.eqb c "t" then Some "009"%char
  else if Ascii.eqb c "n" then Some "010"%char
  else if Ascii.eqb c "f" then Some "012"%char
  else if Ascii.eqb c "r" then Some "013"%char
  else None.

Definition is_space (c : ascii) : bool :=
  let n := N_of_ascii c in
  (n =? 32)%N || (n =? 9)%N || (n =? 10)%N || (n =? 13)%N.

(** A character met between tokens. *)
Definition lex_idle (c : ascii) (out : list token)
  : option (lex_mode * list token) :=
  if is_space c then Some (Idle, out)
  else if Ascii.eqb c "[" then Some (Idle, TOpenArray :: out)
  else if Ascii.eqb c "]" then Some (Idle, TCloseArray :: out)
  else if Ascii.eqb c "{" then Some (Idle, TOpenObject :: out)
  else if Ascii.eqb c "}" then Some (Idle, TCloseObject :: out)
  else if Ascii.eqb c "," then Some (Idle, TComma :: out)
  else if Ascii.eqb c ":" then Some (Idle, TColon :: out)
  else if Ascii.eqb c dquote then Some (InString [], out)
  else if Ascii.eqb c "-" then Some (InNumber true None, out)
  else match digit_value c with
       | Some d => Some (InNumber false (Some d), out)
       | None =>
           if Ascii.eqb c "n" then Some (InWord [c], out) else None
       end.

(** The token a number or a word ends as. *)
Definition lex_close (m : lex_mode) (out : list token) : option (list token) :=
  match m with
  | Idle => Some out
  | InNumber negative (Some z) =>
      Some (TNumber (if negative then - z else z)%Z :: out)
  | InWord acc =>
      if String.eqb (text_of acc) "null" then Some (TNull :: out) else None
  | _ => None
  end.

Fixpoint lex (s : string) (m : lex_mode) (out : list token)
  : option (list token) :=
  match s with
  | EmptyString => reverse <$> lex_close m out
  | String c s' =>
      match m with
      | Idle =>
          '(m', out') ← lex_idle c out; lex s' m' out'
      | InString acc =>
          if Ascii.eqb c dquote then lex s' Idle (TString (text_of acc) :: out)
          else if Ascii.eqb c backslash then lex s' (Escaped acc) out
          else if (N_of_ascii c <? 32)%N then None
          else lex s' (InString (c :: acc)) out
      | Escaped acc =>
          if Ascii.eqb c "u" then lex s' (Unicode acc 4 0) out
          else c' ← unescape c; lex s' (InString (c' :: acc)) out
      | Unicode acc remaining value =>
          d ← hex_value c;
          let value' := (16 * value + d)%N in
          match remaining with
          | 1%nat =>
              if (value' <? 256)%N
              then lex s' (InString (ascii_of_N value' :: acc)) out
              else None
          | _ => lex s' (Unicode acc (pred remaining) value') out
          end
      | InNumber negative digits =>
          match digit_value c with
          | Some d =>
              lex s' (InNumber negative (Some (10 * default 0 digits + d)))%Z out
          | None =>
              out1 ← lex_close m out;
              '(m', out') ← lex_idle c out1; lex s' m' out'
          end
      | InWord acc =>
          if is_space c || Ascii.eqb c "," || Ascii.eqb c "}" || Ascii.eqb c "]"
          then out1 ← lex_close m out;
               '(m', out') ← lex_idle c out1; lex s' m' out'
          else lex s' (InWord (c :: acc)) out
      end
  end.

(** The values a property of a row can have. *)
Inductive json_value : Type :=
| JString (s : string)
| JNumber (z : Z)
| JNull.

(** Where the parser is in `[ {k:v, ...}, ... ]`. *)
Inductive parse_state : Type :=
| AtStart
| ArrayOpen
| ObjectOpen
| AfterKey (key : string)
| AfterColon (key : string)
| AfterValue
| AfterComma
| ObjectClosed
| AfterObjectComma
| ArrayClosed.

(** The properties of an object, last written first. *)
Definition object : Type := list (string * json_value).

Fixpoint property (key : string) (o : object) : option json_value :=
  match o with
  | [] => None
  | (k, v) :: o' => if String.eqb k key then Some v else property key o'
  end.

Definition text_property (key : string) (o : object) : option string :=
  match property key o with
  | Some (JString s) => Some s
  | _ => None
  end.

(** The object as a [Row], when it has the shape of one. *)
Definition row_of_object (o : object) : option Row :=
  d ← text_property "date" o;
  n ← text_property "name" o;
  ds ← text_property "description" o;
  t ← text_property "type" o;
  a ← match property "amount" o with
      | Some (JString s) => Some (AmtStr s)
      | Some (JNumber z) => Some (AmtNum (Num z))
      | _ => None
      end;
  b ← match property "balance" o with
      | None => Some None
      | Some (JNumber z) => Some (Some (Num z))
      | Some _ => None
      end;
  Some {| date := d; name := n; description := ds; type := t;
          amount := a; balance := b |}.

Definition value_of_token (t : token) : option json_value :=
  match t with
  | TString s => Some (JString s)
  | TNumber z => Some (JNumber z)
  | TNull => Some JNull
  | _ => None
  end.

(** [done]: the rows read so far, last first; [o]: the object being
    read. *)
Fixpoint parse_tokens (ts : list token) (st : parse_state)
    (done : list Row) (o : object) : option (list Row) :=
  match ts with
  | [] => match st with ArrayClosed => Some (reverse done) | _ => None end
  | t :: ts' =>
      match st, t with
      | AtStart, TOpenArray => parse_tokens ts' ArrayOpen done o
      | ArrayOpen, TCloseArray => parse_tokens ts' ArrayClosed done o
      | ArrayOpen, TOpenObject => parse_tokens ts' ObjectOpen done []
      | AfterObjectComma, TOpenObject => parse_tokens ts' ObjectOpen done []
      | ObjectOpen, TString k => parse_tokens ts' (AfterKey k) done o
      | AfterComma, TString k => parse_tokens ts' (AfterKey k) done o
      | AfterKey k, TColon => parse_tokens ts' (AfterColon k) done o
      | AfterColon k, _ =>
          v ← value_of_token t; parse_tokens ts' AfterValue done ((k, v) :: o)
      | AfterValue, TComma => parse_tokens ts' AfterComma done o
      | AfterValue, TCloseObject
      | ObjectOpen, TCloseObject =>
          r ← row_of_object o; parse_tokens ts' ObjectClosed (r :: done) o
      | ObjectClosed, TComma => parse_tokens ts' AfterObjectComma done o
      | ObjectClosed, TCloseArray => parse_tokens ts' ArrayClosed done o
      | _, _ => None
      end
  end.

(** [JSON.parse] on a text that has to be a [Row[]]: an array of
    objects with the four texts, an amount that is a text or an
    integer, and a balance that is an integer or absent.  Anything
    else is refused, also JSON that JavaScript reads without complaint
    (an object that lacks a property, a null, a number with a fraction
    or an exponent): [None] stands for a value that is not a [Row[]] as
    well as for a throw. *)
Definition parse (s : string) : option (list Row) :=
  ts ← lex s Idle []; parse_tokens ts AtStart [] [].

(** *** Dates *)

Definition month_name (m : Z) : option string :=
  match m with
  | 1 => Some "Jan" | 2 => Some "Feb" | 3 => Some "Mar" | 4 => Some "Apr"
  | 5 => Some "May" | 6 => Some "Jun" | 7 => Some "Jul" | 8 => Some "Aug"
  | 9 => Some "Sep" | 10 => Some "Oct" | 11 => Some "Nov" | 12 => Some "Dec"
  | _ => None
  end%Z.

Definition leap (y : Z) : bool :=
  ((y mod 4 =? 0) && negb (y mod 100 =? 0) || (y mod 400 =? 0))%Z.

Definition days_in_month (y m : Z) : Z :=
  (if m =? 2 then (if leap y then 29 else 28)
   else if (m =? 4) || (m =? 6) || (m =? 9) || (m =? 11) then 30
   else 31)%Z.

(** An ISO date `YYYY-MM-DD`, which is what the date input of the form
    delivers, shown as `DD Mon YYYY`.  Any other text is answered as
    not a date, also the time stamps and the other formats `Date`
    reads; no time zone is applied. *)
Definition locale_date (s : string) : option string :=
  if negb (String.length s =? 10)%nat then None
  else
    let yyyy := substring 0 4 s in
    let mm := substring 5 2 s in
    let dd := substring 8 2 s in
    if negb (String.eqb (substring 4 1 s) "-" && String.eqb (substring 7 1 s) "-")
    then None
    else
      y ← digits_value 0 yyyy;
      m ← digits_value 0 mm;
      d ← digits_value 0 dd;
      mon ← month_name m;
      if ((1 <=? d) && (d <=? days_in_month y m))%Z
      then Some (dd +:+ " " +:+ mon +:+ " " +:+ yyyy)
      else None.

(** *** What the reader makes of what the writer writes *)

(** The value of a run of digits read after the value [v]. *)
Fixpoint read (s : string) (v : Z) : Z :=
  match s with
  | EmptyString => v
  | String c s' =>
      match digit_value c with
      | Some d => read s' (10 * v + d)%Z
      | None => v
      end
  end.

Fixpoint all_digits (s : string) : bool :=
  match s with
  | EmptyString => true
  | String c s' => bool_decide (is_Some (digit_value c)) && all_digits s'
  end.

(** JSON has no NaN: a row is written faithfully when its numbers are
    not NaN. *)
Definition finite_row (r : Row) : bool :=
  match amount r with AmtNum NaN => false | _ => true end
  && match balance r with Some NaN => false | _ => true end.

Definition token_of_number (n : number) : token :=
  match n with Num z => TNumber z | NaN => TNull end.

(** The tokens of the text of a row. *)
Definition tokens_of_row (r : Row) : list token :=
  [TOpenObject;
   TString "date"; TColon; TString (date r); TComma;
   TString "name"; TColon; TString (name r); TComma;
   TString "description"; TColon; TString (description r); TComma;
   TString "type"; TColon; TString (type r); TComma;
   TString "amount"; TColon;
   match amount r with AmtNum n => token_of_number n | AmtStr s => TString s end]
  ++ match balance r with
     | Some b => [TComma; TString "balance"; TColon; token_of_number b]
     | None => []
     end
  ++ [TCloseObject].

Fixpoint tokens_of_list (data : list Row) : list token :=
  match data with
  | [] => []
  | r :: data' =>
      match data' with
      | [] => tokens_of_row r
      | _ :: _ => tokens_of_row r ++ TComma :: tokens_of_list data'
      end
  end.

Definition tokens_of_rows (data : list Row) : list token :=
  TOpenArray :: tokens_of_list data ++ [TCloseArray].

End AsciiRuntime.

(** The runtime the examples run on: every write to the storage
    succeeds. *)
#[export] Instance ascii_runtime : Runtime := {|
  toUpperCase := AsciiRuntime.upper;
  StringToNumber := AsciiRuntime.number_of_string;
  NumberToString := AsciiRuntime.string_of_number;
  JSON_stringify := AsciiRuntime.stringify;
  JSON_parse := AsciiRuntime.parse;
  toLocaleDateString := AsciiRuntime.locale_date;
  setItem_ok := λ _ _, true;
  JSON_parse_empty := eq_refl
|}.

(** The same runtime with a storage that refuses values longer than
    [quota] characters. *)
Definition quota_runtime (quota : nat) : Runtime := {|
  toUpperCase := AsciiRuntime.upper;
  StringToNumber := AsciiRuntime.number_of_string;
  NumberToString := AsciiRuntime.string_of_number;
  JSON_stringify := AsciiRuntime.stringify;
  JSON_parse := AsciiRuntime.parse;
  toLocaleDateString := AsciiRuntime.locale_date;
  setItem_ok := λ _ v, (String.length v <=? quota)%nat;
  JSON_parse_empty := eq_refl
|}.

(** ** The older page, FinanceTracker

    `src/components/montlyexp.tsx` holds an earlier page over the remote
    endpoint alone: no local store, no delete, an export without
    quoting.  Its load runs the same `map` as above. *)

Module FinanceTracker.
Section Page.
Context `{Runtime}.
Variable sheetUrl : option string.

(** [!x] for [x : number | string] is the negation of this. *)
Definition truthy_amount (a : Amount) : bool :=
  match a with
  | AmtNum n => truthy n
  | AmtStr s => truthy_string s
  end.

(** [[
      if (!sheetUrl) return;
      const res = await fetch(sheetUrl);
      const data = await res.json();
      let bal = 0;
      const normalized = data.map(...);
      setRows(normalized.reverse());
    ]]
    There is no `try`: when the request or the parsing fails the promise
    of the load rejects, [None]. *)
Definition fetchData (get : FetchResult) (w : World) : option World :=
  match endpoint sheetUrl with
  | None => Some w
  | Some url =>
      match get with
      | Rejects => None
      | Resolves _ body =>
          data ← JSON_parse body;
          Some (setRows (reverse (normalize data)) (perform (Fetch url None) w))
      end
  end.

(** [!form.date || !form.amount] *)
Definition rejected (f : Row) : bool :=
  negb (truthy_string (date f)) || negb (truthy_amount (amount f)).

(** handleSubmit.  A reload that rejects is not awaited: it leaves the
    state as it is. *)
Definition handleSubmit (post get : FetchResult) (w : World) : World :=
  match endpoint sheetUrl with
  | None => perform (SwalFire "Config Error" "Sheet URL missing" "warning") w
  | Some url =>
      let f := form w in
      if rejected f then
        perform (SwalFire "Required" "Date & amount are required" "warning") w
      else
        let fd := form_data (rows w) f in
        let w2 :=
          remote_append fd post
            (perform (Fetch url (Some fd)) (setSubmitting true w)) in
        match post with
        | Rejects =>
            setSubmitting false
              (perform (SwalFire "Error" "Something went wrong" "error") w2)
        | Resolves false _ =>
            setSubmitting false
              (perform (SwalFire "Error" "Failed to save data" "error") w2)
        | Resolves true _ =>
            let w3 := perform (SwalFire "Saved" "Transaction added" "success") w2 in
            let w4 := setForm empty w3 in
            setSubmitting false
              (default (perform (Fetch url None) w4) (fetchData get w4))
        end
  end.

(** [[r.date, r.name, r.description, r.type, r.amount, r.balance].join(',')]:
    `join` writes an undefined element as the empty text. *)
Definition csv_row (r : Row) : string :=
  join ","
    [ date r; name r; description r; type r;
      String_of_amount (amount r);
      match balance r with Some b => NumberToString b | None => "" end ].

Definition csv_blob (rs : list Row) : string :=
  join newline (join "," headers :: map csv_row rs).

Definition downloadExcel (w : World) : World :=
  perform (Download "finance-tracker.csv" (csv_blob (rows w))) w.

End Page.
End FinanceTracker.

(** ** Ledgers to run the page on *)

Module Scenario.

(** An entry with a date, a type and an amount. *)
Definition entry (d t : string) (a : Amount) : Row :=
  {| date := d; name := ""; description := ""; type := t; amount := a;
     balance := None |}.

Definition in100 : Row := entry "2025-01-01" "IN" (AmtNum (Num 100)).
Definition out30 : Row := entry "2025-01-02" "OUT" (AmtNum (Num 30)).
Definition out5 : Row := entry "2025-01-03" "OUT" (AmtStr "5").

(** A configured endpoint. *)
Definition remote : option string := Some "https://sheet.example/exec".

(** The page with a form filled in, in front of an empty ledger. *)
Definition fresh (f : Row) : World := setForm f initial.

(** The page showing the chronological entries [raw], with a form
    filled in. *)
Definition showing (raw : list Row) (f : Row) : World :=
  setForm f (setRows (reverse (normalize raw)) initial).

(** The same page, over a local store that holds [raw]. *)
Definition stored (raw : list Row) (f : Row) : World :=
  persistLocal raw (showing raw f).

End Scenario.

(** * Properties *)

(** ** Numbers *)

Section NumberFacts.

Lemma or_zero_idem n : or_zero (or_zero n) = or_zero n.
Proof.
  unfold or_zero. destruct (truthy n) eqn:E; [by rewrite E | done].
Qed.

Lemma or_zero_Num z : or_zero (Num z) = Num z.
Proof.
  unfold or_zero; simpl. destruct (Z.eqb_spec z 0); simpl; congruence.
Qed.

Lemma or_zero_is_Num n : ∃ z, or_zero n = Num z.
Proof.
  destruct n as [z|]; [exists z; apply or_zero_Num | by exists 0%Z].
Qed.

Lemma add_zero_r n : add n (Num 0) = n.
Proof. destruct n; simpl; [f_equal; lia | done]. Qed.

Lemma sub_add_neg a b : sub a b = add a (neg b).
Proof. by destruct a, b. Qed.

Lemma or_empty_id s : or_empty s = s.
Proof.
  unfold or_empty, truthy_string. by destruct (String.eqb_spec s "") as [->|].
Qed.

End NumberFacts.

(** ** The normaliser *)

Section NormalizerFacts.
Context `{Runtime}.

(** One step of the fold, in the words of the specification. *)
Lemma normalize_row_annotate bal r :
  normalize_row bal r = (add bal (signedAmount r), annotate bal r).
Proof.
  unfold normalize_row, annotate, signedAmount, entry_kind, coerced_amount.
  rewrite or_empty_id.
  destruct (String.eqb (toUpperCase (type r)) "IN"); [done|].
  destruct (String.eqb (toUpperCase (type r)) "OUT").
  - by rewrite sub_add_neg.
  - by rewrite add_zero_r.
Qed.

Lemma map_with_length {S A B} (f : S → A → S * B) s l :
  length (map_with f s l) = length l.
Proof.
  revert s. induction l as [|x l IH]; intros s; simpl; [done|].
  destruct (f s x) as [s' y]. simpl. by rewrite IH.
Qed.

Lemma normalize_from_cons bal r raw :
  map_with normalize_row bal (r :: raw)
  = annotate bal r :: map_with normalize_row (add bal (signedAmount r)) raw.
Proof. cbn [map_with]. by rewrite normalize_row_annotate. Qed.

(** The fold started from any balance: entry [i] is annotated with the
    balance in front of it. *)
Lemma normalize_from_lookup bal raw i :
  map_with normalize_row bal raw !! i
  = annotate
      (match i with
       | O => bal
       | S j => default (Num 0) (map_with normalize_row bal raw !! j ≫= balance)
       end)
    <$> raw !! i.
Proof.
  revert bal i. induction raw as [|r raw IH]; intros bal i.
  - by destruct i.
  - rewrite normalize_from_cons. destruct i as [|i]; [done|].
    simpl. rewrite IH. destruct i as [|i]; [done|]. done.
Qed.

(** C1.  Normalisation is a running-sum fold.  The empty sequence is
    normalised to the empty sequence; the output has one entry per input
    entry; and for every position, the output entry is the copy of the
    input entry whose amount is the coerced amount (0 when the coercion
    fails) and whose balance is the previous balance (0 in front of the
    first entry) plus the signed amount: +amount for IN, -amount for OUT
    and 0 for any other type, INOUT included, the type being compared in
    upper case. *)
Theorem normalize_running_sum (raw : list Row) (i : nat) :
  normalize [] = []
  ∧ length (normalize raw) = length raw
  ∧ normalize raw !! i
    = annotate (balance_before (normalize raw) i) <$> raw !! i.
Proof.
  split; [done|]. split; [apply map_with_length|].
  apply normalize_from_lookup.
Qed.

(** *** The final balance *)

Lemma coerced_amount_is_Num r : ∃ c, coerced_amount r = Num c.
Proof. apply or_zero_is_Num. Qed.

Lemma sum_of_kind_cons kind r raw :
  sum_of_kind kind (r :: raw)
  = if String.eqb (entry_kind r) kind
    then match coerced_amount r with
         | Num z => (z + sum_of_kind kind raw)%Z
         | NaN => sum_of_kind kind raw
         end
    else sum_of_kind kind raw.
Proof. done. Qed.

(** One more entry moves the balance by as much as it moves the
    difference of the two sums. *)
Lemma step_value z r raw :
  ∃ z', add (Num z) (signedAmount r) = Num z'
    ∧ (z' + sum_of_kind "IN" raw - sum_of_kind "OUT" raw
       = z + sum_of_kind "IN" (r :: raw) - sum_of_kind "OUT" (r :: raw))%Z.
Proof.
  destruct (coerced_amount_is_Num r) as [c Hc].
  unfold signedAmount. rewrite !sum_of_kind_cons, Hc.
  destruct (String.eqb_spec (entry_kind r) "IN") as [E|E].
  - rewrite E. simpl. eexists; split; [done|lia].
  - destruct (String.eqb_spec (entry_kind r) "OUT") as [E'|E'].
    + simpl. eexists; split; [done|lia].
    + simpl. eexists; split; [done|lia].
Qed.

Lemma last_balance_from z raw :
  last (map_with normalize_row (Num z) raw) ≫= balance
  = match raw with
    | [] => None
    | _ :: _ => Some (Num (z + sum_of_kind "IN" raw - sum_of_kind "OUT" raw))
    end.
Proof.
  revert z. induction raw as [|r raw IH]; intros z; [done|].
  rewrite normalize_from_cons, last_cons.
  destruct (step_value z r raw) as (z' & Hz' & Hsum).
  rewrite Hz'. specialize (IH z').
  destruct raw as [|r' raw'].
  - change (Some (add (Num z) (signedAmount r)) = Some (Num (z + sum_of_kind "IN" [r] - sum_of_kind "OUT" [r]))).
    rewrite Hz'. do 2 f_equal. change (sum_of_kind "IN" []) with 0%Z in Hsum.
    change (sum_of_kind "OUT" []) with 0%Z in Hsum. lia.
  - destruct (last _) as [y|]; [|done].
    rewrite IH. do 2 f_equal. lia.
Qed.

Lemma currentBalance_head (l : list Row) :
  currentBalance l = balance_or_zero (head l ≫= balance).
Proof. by destruct l. Qed.

Lemma final_balance_value (raw : list Row) :
  currentBalance (reverse (normalize raw))
  = Num (sum_of_kind "IN" raw - sum_of_kind "OUT" raw).
Proof.
  rewrite currentBalance_head, head_reverse. unfold normalize.
  rewrite last_balance_from. destruct raw; [done|].
  cbn [mbind option_bind balance_or_zero]. rewrite or_zero_Num. f_equal; lia.
Qed.

Lemma last_balance_value (raw : list Row) :
  default (Num 0) (last (normalize raw) ≫= balance)
  = Num (sum_of_kind "IN" raw - sum_of_kind "OUT" raw).
Proof.
  unfold normalize. rewrite last_balance_from. destruct raw; [done|].
  simpl. f_equal; lia.
Qed.

(** *** A reduce over the reversed list *)

Lemma foldl_reverse {A B} (f : A → B → A) a l :
  foldl f a (reverse l) = foldr (λ x acc, f acc x) a l.
Proof.
  induction l as [|x l IH]; [done|].
  by rewrite reverse_cons, foldl_snoc, IH.
Qed.

(** *** Idempotence *)

Lemma annotate_raw_entry bal r :
  annotate bal (raw_entry (annotate bal r)) = annotate bal r
  ∧ signedAmount (raw_entry (annotate bal r)) = signedAmount r.
Proof.
  unfold annotate, signedAmount, entry_kind, coerced_amount, raw_entry.
  cbn [date name description type amount balance Number].
  by rewrite or_zero_idem.
Qed.

Lemma normalize_from_idempotent bal raw :
  map_with normalize_row bal (raw_entry <$> map_with normalize_row bal raw)
  = map_with normalize_row bal raw.
Proof.
  revert bal. induction raw as [|r raw IH]; intros bal; [done|].
  rewrite normalize_from_cons, fmap_cons, normalize_from_cons.
  destruct (annotate_raw_entry bal r) as [-> ->]. by rewrite IH.
Qed.

(** C8.  Normalisation is idempotent: normalising the raw projection of
    a normalised sequence gives the normalised sequence again, so the
    same amounts and the same balances. *)
Theorem normalize_idempotent (raw : list Row) :
  normalize (raw_entry <$> normalize raw) = normalize raw
  ∧ (amount <$> normalize (raw_entry <$> normalize raw))
    = (amount <$> normalize raw)
  ∧ (balance <$> normalize (raw_entry <$> normalize raw))
    = (balance <$> normalize raw).
Proof.
  assert (normalize (raw_entry <$> normalize raw) = normalize raw) as E
    by apply normalize_from_idempotent.
  by rewrite E.
Qed.

End NormalizerFacts.

(** ** Doubles: where the arithmetic is exact

    An integer of magnitude up to 2^53 is a double, and the sum and the
    difference of two such integers are computed without rounding when
    they are in that range themselves. *)

Section Binary64Facts.
Import SpecFloat.
Local Open Scope Z_scope.
Import Binary64.

(** The number of digits of a mantissa, as the library counts them. *)
Lemma digits2_pos_size p : digits2_pos p = Pos.size p.
Proof. induction p as [p IH|p IH|]; simpl; by rewrite ?IH. Qed.

Lemma digits2_log2 p : Zpos (digits2_pos p) = Z.log2 (Zpos p) + 1.
Proof.
  rewrite digits2_pos_size. destruct p as [p|p|]; simpl; try lia.
Qed.

Lemma iter_pos_iter {A} (f : A → A) n x :
  SpecFloat.iter_pos f n x = Pos.iter f x n.
Proof.
  revert x. induction n as [n IH|n IH|]; intros x; simpl; [|by rewrite !IH|done].
  rewrite !IH. by rewrite !Pos.iter_swap.
Qed.

Lemma Zpos_iter_xO m n : Zpos (Pos.iter xO m n) = Zpos m * 2 ^ Zpos n.
Proof.
  induction n as [|n IH] using Pos.peano_ind.
  - simpl. lia.
  - rewrite Pos.iter_succ, Pos2Z.inj_xO, IH, Pos2Z.inj_succ, Z.pow_succ_r by lia.
    lia.
Qed.

(** Shifting out zeros loses nothing. *)
Lemma shr_exact m n :
  Pos.iter shr_1 {| shr_m := Zpos (Pos.iter xO m n); shr_r := false; shr_s := false |} n
  = {| shr_m := Zpos m; shr_r := false; shr_s := false |}.
Proof.
  induction n as [|n IH] using Pos.peano_ind; [done|].
  rewrite !Pos.iter_succ. rewrite <- Pos.iter_swap. simpl. exact IH.
Qed.

Lemma fexp_canonical ε : -1074 ≤ ε → fexp 53 1024 (53 + ε) = ε.
Proof. intros Hε. unfold fexp, emin. lia. Qed.

(** Rounding a mantissa of 53 digits that is in range changes
    nothing. *)
Lemma binary_round_aux_canonical s μ ε :
  Zpos (digits2_pos μ) = 53 → -1074 ≤ ε ≤ 971 →
  binary_round_aux 53 1024 s (Zpos μ) ε loc_Exact = S754_finite s μ ε.
Proof.
  intros Hd Hε. unfold binary_round_aux, shr_fexp. cbn [Zdigits2 shr_record_of_loc].
  rewrite Hd, fexp_canonical, Z.sub_diag by lia.
  cbn [shr shr_m loc_of_shr_record round_nearest_even Zdigits2 shr_record_of_loc].
  rewrite Hd, fexp_canonical, Z.sub_diag by lia.
  cbn [shr shr_m].
  destruct (Z.leb_spec ε (1024 - 53)); [done|lia].
Qed.

(** Rounding is the identity on what a double can hold: a mantissa and
    an exponent that stand for the value of a canonical double are
    rounded to that double. *)
Lemma binary_round_exact s m e μ ε :
  Zpos (digits2_pos μ) = 53 →
  -52 ≤ e → -52 ≤ ε ≤ 971 →
  Zpos m * 2 ^ (e + 52) = Zpos μ * 2 ^ (ε + 52) →
  binary_round 53 1024 s m e = S754_finite s μ ε.
Proof.
  intros Hd He Hε Hval.
  assert (Zpos (digits2_pos m) + e = 53 + ε) as Hdm.
  { apply (f_equal Z.log2) in Hval.
    rewrite !Z.log2_mul_pow2 in Hval by lia.
    rewrite digits2_log2 in Hd |- *. lia. }
  unfold binary_round. rewrite Hdm, fexp_canonical by lia.
  unfold shl_align.
  destruct (ε - e) as [|n|n] eqn:Hn.
  - assert (ε = e) as -> by lia.
    assert (m = μ) as ->.
    { apply Z.mul_reg_r in Hval; [congruence|]. apply Z.pow_nonzero; lia. }
    by apply binary_round_aux_canonical; [|lia].
  - assert (ε = e + Zpos n) as Hε' by lia.
    assert (m = Pos.iter xO μ n) as ->.
    { apply Pos2Z.inj. rewrite Zpos_iter_xO.
      rewrite Hε' in Hval.
      replace (e + Z.pos n + 52) with (Zpos n + (e + 52)) in Hval by lia.
      rewrite (Z.pow_add_r 2 (Zpos n) (e + 52)), Z.mul_assoc in Hval by lia.
      apply Z.mul_reg_r in Hval; [done|]. apply Z.pow_nonzero; lia. }
    unfold binary_round_aux, shr_fexp. cbn [Zdigits2 shr_record_of_loc].
    rewrite Hdm, fexp_canonical, Hn by lia.
    cbn [shr]. rewrite iter_pos_iter, shr_exact.
    cbn [shr_m loc_of_shr_record round_nearest_even Zdigits2 shr_record_of_loc].
    replace (e + Zpos n) with ε by lia.
    rewrite Hd, fexp_canonical, Z.sub_diag by lia.
    cbn [shr shr_m].
    destruct (Z.leb_spec ε (1024 - 53)); [done|lia].
  - assert (e = ε + Zpos n) as He' by lia.
    assert (Pos.iter xO m n = μ) as ->.
    { apply Pos2Z.inj. rewrite Zpos_iter_xO.
      rewrite He' in Hval.
      replace (ε + Z.pos n + 52) with (Zpos n + (ε + 52)) in Hval by lia.
      rewrite (Z.pow_add_r 2 (Zpos n) (ε + 52)), Z.mul_assoc in Hval by lia.
      apply Z.mul_reg_r in Hval; [done|]. apply Z.pow_nonzero; lia. }
    by apply binary_round_aux_canonical; [|lia].
Qed.

(** The double of an integer of magnitude up to 2^53: no rounding. *)
Lemma canonical_of_pos p :
  Zpos p ≤ 2 ^ 53 →
  ∃ μ ε, Zpos (digits2_pos μ) = 53 ∧ -52 ≤ ε ≤ 1
         ∧ Zpos μ * 2 ^ (ε + 52) = Zpos p * 2 ^ 52.
Proof.
  intros Hp.
  assert (0 ≤ Z.log2 (Zpos p) ≤ 53) as Hl.
  { split; [apply Z.log2_nonneg|].
    rewrite <- (Z.log2_pow2 53) by lia. by apply Z.log2_le_mono. }
  destruct (Z.eq_dec (Z.log2 (Zpos p)) 53) as [E|E].
  - assert (Zpos p = 2 ^ 53) as Hp'.
    { pose proof (Z.log2_spec (Zpos p) ltac:(lia)) as [Hlo _].
      rewrite E in Hlo. lia. }
    exists (Z.to_pos (2 ^ 52)), 1. rewrite Hp'. by vm_compute.
  - exists (Z.to_pos (Zpos p * 2 ^ (52 - Z.log2 (Zpos p)))),
           (Z.log2 (Zpos p) - 52).
    assert (0 < Zpos p * 2 ^ (52 - Z.log2 (Zpos p))) as Hpos.
    { apply Z.mul_pos_pos; [lia|]. apply Z.pow_pos_nonneg; lia. }
    rewrite digits2_log2, Z2Pos.id by done.
    rewrite Z.log2_mul_pow2 by lia.
    split; [lia|]. split; [lia|].
    rewrite <- Z.mul_assoc, <- Z.pow_add_r by lia. do 2 f_equal. lia.
Qed.

Lemma of_Z_canonical z :
  z ≠ 0 → Z.abs z ≤ 2 ^ 53 →
  ∃ μ ε, of_Z z = S754_finite (z <? 0) μ ε
         ∧ Zpos (digits2_pos μ) = 53 ∧ -52 ≤ ε ≤ 1
         ∧ Zpos μ * 2 ^ (ε + 52) = Z.abs z * 2 ^ 52.
Proof.
  intros Hz Hsafe. destruct z as [|p|p]; [done| |].
  - destruct (canonical_of_pos p Hsafe) as (μ & ε & Hd & Hε & Hval).
    exists μ, ε. split; [|done].
    unfold of_Z, binary_normalize. apply binary_round_exact; [done|lia|lia|].
    by rewrite Hval.
  - destruct (canonical_of_pos p Hsafe) as (μ & ε & Hd & Hε & Hval).
    exists μ, ε. split; [|done].
    unfold of_Z, binary_normalize. apply binary_round_exact; [done|lia|lia|].
    by rewrite Hval.
Qed.

(** A sum of aligned mantissas that stands for an integer of magnitude
    up to 2^53 is normalised to the double of that integer. *)
Lemma binary_normalize_exact M e N :
  -52 ≤ e → Z.abs N ≤ 2 ^ 53 →
  M * 2 ^ (e + 52) = N * 2 ^ 52 →
  binary_normalize 53 1024 M e false = of_Z N.
Proof.
  intros He Hsafe Hval.
  assert (0 < 2 ^ (e + 52)) as Hpow by (apply Z.pow_pos_nonneg; lia).
  destruct M as [|m|m].
  - assert (N = 0) as -> by lia. done.
  - assert (0 < N) as HN by nia.
    destruct (of_Z_canonical N ltac:(lia) Hsafe) as (μ & ε & -> & Hd & Hε & Hv).
    replace (N <? 0) with false by lia.
    unfold binary_normalize. apply binary_round_exact; [done|lia|lia|].
    rewrite Hv, Hval. f_equal. lia.
  - assert (N < 0) as HN by nia.
    destruct (of_Z_canonical N ltac:(lia) Hsafe) as (μ & ε & -> & Hd & Hε & Hv).
    replace (N <? 0) with true by lia.
    unfold binary_normalize. apply binary_round_exact; [done|lia|lia|].
    rewrite Hv. replace (Z.abs N) with (- N) by lia. lia.
Qed.

Lemma shl_align_value mx ex ex' :
  ex' ≤ ex → -52 ≤ ex' →
  Zpos (fst (shl_align mx ex ex')) * 2 ^ (ex' + 52) = Zpos mx * 2 ^ (ex + 52).
Proof.
  intros Hle Hex'. unfold shl_align.
  destruct (ex' - ex) as [|d|d] eqn:Hd; [|lia|].
  - by replace ex' with ex by lia.
  - cbn [fst]. rewrite Zpos_iter_xO, <- Z.mul_assoc, <- Z.pow_add_r by lia.
    do 2 f_equal. lia.
Qed.

(** Addition and subtraction of integers, on doubles, in the range
    where every integer is a double. *)
Lemma add_exact x y :
  Z.abs x ≤ 2 ^ 53 → Z.abs y ≤ 2 ^ 53 → Z.abs (x + y) ≤ 2 ^ 53 →
  add (of_Z x) (of_Z y) = of_Z (x + y).
Proof.
  intros Hx Hy Hxy.
  destruct (Z.eq_dec x 0) as [->|Hx0].
  { destruct (Z.eq_dec y 0) as [->|Hy0]; [done|].
    destruct (of_Z_canonical y Hy0 Hy) as (μ & ε & E & _).
    rewrite Z.add_0_l, E. done. }
  destruct (Z.eq_dec y 0) as [->|Hy0].
  { destruct (of_Z_canonical x Hx0 Hx) as (μ & ε & E & _).
    rewrite Z.add_0_r, E. done. }
  destruct (of_Z_canonical x Hx0 Hx) as (μx & εx & -> & _ & Hεx & Hvx).
  destruct (of_Z_canonical y Hy0 Hy) as (μy & εy & -> & _ & Hεy & Hvy).
  unfold add, SFadd.
  apply binary_normalize_exact; [lia|done|].
  pose proof (shl_align_value μx εx (Z.min εx εy) ltac:(lia) ltac:(lia)) as Hax.
  pose proof (shl_align_value μy εy (Z.min εx εy) ltac:(lia) ltac:(lia)) as Hay.
  rewrite Hvx in Hax. rewrite Hvy in Hay.
  rewrite Z.mul_add_distr_r. unfold cond_Zopp.
  destruct (Z.ltb_spec x 0), (Z.ltb_spec y 0); lia.
Qed.

Lemma sub_exact x y :
  Z.abs x ≤ 2 ^ 53 → Z.abs y ≤ 2 ^ 53 → Z.abs (x - y) ≤ 2 ^ 53 →
  sub (of_Z x) (of_Z y) = of_Z (x - y).
Proof.
  intros Hx Hy Hxy.
  destruct (Z.eq_dec y 0) as [->|Hy0].
  { rewrite Z.sub_0_r. destruct (Z.eq_dec x 0) as [->|Hx0]; [done|].
    destruct (of_Z_canonical x Hx0 Hx) as (μ & ε & E & _).
    rewrite E. done. }
  destruct (Z.eq_dec x 0) as [->|Hx0].
  { destruct (of_Z_canonical y Hy0 Hy) as (μ & ε & E & Hd & Hε & Hv).
    destruct (of_Z_canonical (- y) ltac:(lia) ltac:(lia))
      as (μ' & ε' & E' & Hd' & Hε' & Hv').
    rewrite Z.sub_0_l, E, E'. unfold sub, of_Z, SFsub; cbn.
    assert (ε' = ε) as ->.
    { rewrite Z.abs_opp, <- Hv in Hv'. apply (f_equal Z.log2) in Hv'.
      rewrite !Z.log2_mul_pow2 in Hv' by lia.
      rewrite digits2_log2 in Hd, Hd'. lia. }
    assert (μ' = μ) as ->.
    { rewrite Z.abs_opp, <- Hv in Hv'.
      apply Z.mul_reg_r in Hv'; [congruence|]. apply Z.pow_nonzero; lia. }
    f_equal. destruct (Z.ltb_spec y 0), (Z.ltb_spec (- y) 0); simpl; lia. }
  destruct (of_Z_canonical x Hx0 Hx) as (μx & εx & -> & _ & Hεx & Hvx).
  destruct (of_Z_canonical y Hy0 Hy) as (μy & εy & -> & _ & Hεy & Hvy).
  unfold sub, SFsub.
  apply binary_normalize_exact; [lia|done|].
  pose proof (shl_align_value μx εx (Z.min εx εy) ltac:(lia) ltac:(lia)) as Hax.
  pose proof (shl_align_value μy εy (Z.min εx εy) ltac:(lia) ltac:(lia)) as Hay.
  rewrite Hvx in Hax. rewrite Hvy in Hay.
  rewrite Z.mul_sub_distr_r. unfold cond_Zopp.
  destruct (Z.ltb_spec x 0), (Z.ltb_spec y 0); lia.
Qed.

Lemma or_zero_exact z :
  Z.abs z ≤ 2 ^ 53 → Binary64.or_zero (of_Z z) = of_Z z.
Proof.
  intros Hz. destruct (Z.eq_dec z 0) as [->|Hz0]; [done|].
  by destruct (of_Z_canonical z Hz0 Hz) as (μ & ε & -> & _).
Qed.

End Binary64Facts.

(** ** The sums of the page on doubles *)

Section ExactSums.
Context `{Runtime}.
Local Open Scope Z_scope.

Lemma amount_value_coerced r : coerced_amount r = Num (amount_value r).
Proof.
  unfold amount_value. destruct (coerced_amount_is_Num r) as [c Hc].
  by rewrite Hc.
Qed.

Lemma signedAmount_value r : signedAmount r = Num (signed_value r).
Proof.
  unfold signedAmount, signed_value. rewrite amount_value_coerced.
  by repeat case_match.
Qed.

Lemma sum_of_kind_signed raw :
  sum_of_kind "IN" raw - sum_of_kind "OUT" raw
  = foldr (λ r acc, signed_value r + acc) 0 raw.
Proof.
  induction raw as [|r raw IH]; [done|].
  rewrite !sum_of_kind_cons. cbn [foldr]. rewrite <- IH.
  unfold signed_value. rewrite amount_value_coerced.
  destruct (String.eqb_spec (entry_kind r) "IN") as [E|E].
  - rewrite E. simpl. lia.
  - destruct (String.eqb (entry_kind r) "OUT"); lia.
Qed.

Lemma amt_exact r :
  safe_integer (amount_value r) → Binary64.amt r = Binary64.of_Z (amount_value r).
Proof.
  unfold safe_integer, amount_value, coerced_amount, Binary64.amt.
  destruct (Number (amount r)) as [z|]; [|done].
  rewrite or_zero_Num. cbn [Binary64.of_number]. apply or_zero_exact.
Qed.

Lemma step_exact bal r :
  safe_integer bal → safe_integer (signed_value r) →
  safe_integer (bal + signed_value r) →
  Binary64.step (Binary64.of_Z bal) r = Binary64.of_Z (bal + signed_value r).
Proof.
  unfold safe_integer, signed_value, Binary64.step, entry_kind.
  rewrite or_empty_id. intros Hbal Hr Hsum.
  destruct (String.eqb (toUpperCase (type r)) "IN").
  { rewrite amt_exact by done. by apply add_exact. }
  destruct (String.eqb (toUpperCase (type r)) "OUT").
  { rewrite amt_exact by (unfold safe_integer; lia).
    rewrite <- Z.sub_opp_r, Z.opp_involutive in Hsum |- *.
    apply sub_exact; [done|lia|done]. }
  by rewrite Z.add_0_r.
Qed.

Lemma balances_exact bal raw :
  safe_integer bal →
  Forall (λ r, safe_integer (signed_value r)) raw →
  Forall safe_integer (running_sums bal raw) →
  map_with (λ b r, let b := Binary64.step b r in (b, b)) (Binary64.of_Z bal) raw
  = Binary64.of_Z <$> running_sums bal raw.
Proof.
  intros Hbal Hraw. revert bal Hbal.
  induction Hraw as [|r raw Hr _ IH]; intros bal Hbal Hrun; [done|].
  cbn [running_sums] in Hrun. apply Forall_cons in Hrun as [Hb Hrun].
  cbn [map_with running_sums fmap list_fmap].
  rewrite step_exact by done. f_equal. by apply IH.
Qed.

Lemma running_sums_last bal raw :
  last (running_sums bal raw)
  = match raw with
    | [] => None
    | _ :: _ => Some (bal + foldr (λ r acc, signed_value r + acc) 0 raw)
    end.
Proof.
  revert bal. induction raw as [|r raw IH]; intros bal; [done|].
  cbn [running_sums foldr]. rewrite last_cons, IH.
  destruct raw; simpl; f_equal; lia.
Qed.

(** Within the exact range the two embeddings agree: the balances on
    doubles are the doubles of the balances of the exact model. *)
Lemma normalize_balances bal raw :
  balance <$> map_with normalize_row (Num bal) raw
  = (λ b, Some (Num b)) <$> running_sums bal raw.
Proof.
  revert bal. induction raw as [|r raw IH]; intros bal; [done|].
  rewrite normalize_from_cons, signedAmount_value.
  cbn [fmap list_fmap running_sums annotate balance add].
  rewrite signedAmount_value. cbn [add]. f_equal. apply IH.
Qed.

Lemma balances_agree raw :
  exact_arithmetic raw →
  Some <$> Binary64.balances raw
  = fmap Binary64.of_number <$> (balance <$> normalize raw).
Proof.
  intros [Hraw Hrun]. unfold Binary64.balances, normalize.
  change Binary64.zero with (Binary64.of_Z 0).
  rewrite balances_exact by (done || unfold safe_integer; lia).
  rewrite normalize_balances, <- !list_fmap_compose. done.
Qed.

(** On a ledger whose sums stay in the exact range, the balance shown
    is the double of the exact sum. *)
Lemma currentBalance_exact raw :
  exact_arithmetic raw →
  Binary64.currentBalance raw
  = Binary64.of_Z (sum_of_kind "IN" raw - sum_of_kind "OUT" raw).
Proof.
  intros [Hraw Hrun]. unfold Binary64.currentBalance, Binary64.balances.
  change Binary64.zero with (Binary64.of_Z 0).
  rewrite balances_exact by (done || unfold safe_integer; lia).
  rewrite sum_of_kind_signed.
  destruct raw as [|r raw]; [done|].
  pose proof (running_sums_last 0 (r :: raw)) as Hlast.
  rewrite Z.add_0_l in Hlast.
  destruct (reverse (Binary64.of_Z <$> running_sums 0 (r :: raw)))
    as [|b rest] eqn:Hrev.
  { apply (f_equal length) in Hrev.
    rewrite length_reverse, length_fmap in Hrev. done. }
  apply (f_equal head) in Hrev. rewrite head_reverse, fmap_last, Hlast in Hrev.
  injection Hrev as <-.
  apply or_zero_exact.
  rewrite Forall_forall in Hrun.
  apply (Hrun _ (last_Some_elem_of _ _ Hlast)).
Qed.

(** The largest sum of a fold is bounded by the sum of the magnitudes. *)
Lemma absolute_total_nonneg raw : 0 ≤ absolute_total raw.
Proof. induction raw as [|r raw IH]; simpl; lia. Qed.

Lemma exact_of_total bal raw :
  Z.abs bal + absolute_total raw ≤ 2 ^ 53 →
  Forall (λ r, safe_integer (signed_value r)) raw
  ∧ Forall safe_integer (running_sums bal raw).
Proof.
  revert bal. induction raw as [|r raw IH]; intros bal Hb; [done|].
  cbn [absolute_total foldr running_sums] in *.
  fold (absolute_total raw) in Hb.
  pose proof (absolute_total_nonneg raw).
  assert (Z.abs (bal + signed_value r) + absolute_total raw ≤ 2 ^ 53) as Hb'
    by lia.
  destruct (IH _ Hb') as [Hraw Hrun].
  split; constructor; try done; unfold safe_integer; lia.
Qed.

Lemma absolute_total_perm raw raw' :
  raw ≡ₚ raw' → absolute_total raw = absolute_total raw'.
Proof.
  induction 1 as [|x l l' _ IH|x y l|l l' l'' _ IH1 _ IH2];
    [done| | |congruence]; cbn [absolute_total foldr];
    fold (absolute_total l); [fold (absolute_total l')|]; lia.
Qed.

Lemma sum_of_kind_bound kind raw :
  kind = "IN" ∨ kind = "OUT" →
  Z.abs (sum_of_kind kind raw) ≤ absolute_total raw.
Proof.
  intros Hkind. induction raw as [|r raw IH]; [done|].
  rewrite sum_of_kind_cons. cbn [absolute_total foldr].
  fold (absolute_total raw). rewrite amount_value_coerced.
  unfold signed_value.
  destruct (String.eqb_spec (entry_kind r) kind) as [E|E]; [|lia].
  destruct Hkind as [-> | ->]; rewrite E; simpl; lia.
Qed.

Lemma total_exact kind raw :
  kind = "IN" ∨ kind = "OUT" →
  Forall (λ r, toUpperCase (type r) = type r) raw →
  absolute_total raw ≤ 2 ^ 53 →
  Binary64.total kind raw = Binary64.of_Z (sum_of_kind kind raw).
Proof.
  intros Hkind Hup. unfold Binary64.total. rewrite foldl_reverse.
  induction Hup as [|r raw Hr _ IH]; intros Hbound; [done|].
  cbn [foldr absolute_total] in *. fold (absolute_total raw) in Hbound.
  pose proof (absolute_total_nonneg raw).
  pose proof (sum_of_kind_bound kind raw Hkind).
  rewrite IH by lia. rewrite sum_of_kind_cons, amount_value_coerced.
  unfold entry_kind. rewrite Hr.
  assert (String.eqb (type r) kind = true →
          Z.abs (signed_value r) = Z.abs (amount_value r)) as Hsigned.
  { intros E. apply String.eqb_eq in E. unfold signed_value, entry_kind.
    rewrite Hr, E. destruct Hkind as [-> | ->]; simpl; lia. }
  destruct (String.eqb (type r) kind).
  - specialize (Hsigned eq_refl).
    rewrite amt_exact by (unfold safe_integer; lia).
    rewrite add_exact by lia. f_equal. lia.
  - change Binary64.zero with (Binary64.of_Z 0).
    rewrite add_exact by lia. f_equal. lia.
Qed.

Lemma signed_total_bound raw :
  Z.abs (foldr (λ r acc, signed_value r + acc) 0 raw) ≤ absolute_total raw.
Proof.
  induction raw as [|r raw IH]; simpl; [lia|]. fold (absolute_total raw). lia.
Qed.

Lemma last_balance_exact raw :
  exact_arithmetic raw →
  default Binary64.zero (last (Binary64.balances raw))
  = Binary64.of_Z (sum_of_kind "IN" raw - sum_of_kind "OUT" raw).
Proof.
  intros [Hraw Hrun]. unfold Binary64.balances.
  change Binary64.zero with (Binary64.of_Z 0) at 2.
  rewrite balances_exact by (done || unfold safe_integer; lia).
  rewrite sum_of_kind_signed, fmap_last, running_sums_last.
  destruct raw; [done|]. simpl. f_equal.
Qed.

(** C3.  The final balance that normalisation produces is the sum of the
    amounts of the IN entries minus the sum of the amounts of the OUT
    entries, entries of any other type, INOUT included, contributing
    nothing, for every chronological sequence of entries whose amounts
    are integers and whose sums stay where doubles are exact: every
    amount that counts and every running balance has a magnitude of at
    most 2^53.  This holds of the balance as the page reads it, at the
    head of the newest-first list, and of the balance of the last entry
    of the chronological output; on binary64, and in the exact model of
    the page.  Amounts are the coerced ones and types are compared in
    upper case, as normalisation does.  Outside that range a sum can
    round, and the two sides can differ. *)
Theorem final_balance_is_in_minus_out (raw : list Row) :
  exact_arithmetic raw →
  Binary64.currentBalance raw
  = Binary64.of_Z (sum_of_kind "IN" raw - sum_of_kind "OUT" raw)
  ∧ default Binary64.zero (last (Binary64.balances raw))
    = Binary64.of_Z (sum_of_kind "IN" raw - sum_of_kind "OUT" raw)
  ∧ currentBalance (reverse (normalize raw))
    = Num (sum_of_kind "IN" raw - sum_of_kind "OUT" raw)
  ∧ default (Num 0) (last (normalize raw) ≫= balance)
    = Num (sum_of_kind "IN" raw - sum_of_kind "OUT" raw).
Proof.
  intros Hexact.
  split; [by apply currentBalance_exact|].
  split; [by apply last_balance_exact|].
  split; [apply final_balance_value | apply last_balance_value].
Qed.

End ExactSums.

(** ** The local store *)

Section LocalStoreFacts.
Context `{Runtime}.

(** What loadLocal returns: the parsed value of the key, and the empty
    list when the key is absent, empty or not JSON. *)
Lemma loadLocal_value w :
  (loadLocal w).1 = default [] (localStorage w !! LS_KEY ≫= JSON_parse).
Proof.
  unfold loadLocal. cbn [perform localStorage].
  destruct (localStorage w !! LS_KEY) as [raw|]; [|done].
  unfold truthy_string. destruct (String.eqb_spec raw "") as [->|_]; simpl.
  - by rewrite JSON_parse_empty.
  - by destruct (JSON_parse raw).
Qed.

(** loadLocal only reads. *)
Lemma loadLocal_world w :
  (loadLocal w).2 = perform (GetItem LS_KEY) w.
Proof.
  unfold loadLocal. cbn [perform localStorage].
  destruct (localStorage w !! LS_KEY) as [raw|]; [|done].
  destruct (negb _); [done|]. by destruct (JSON_parse raw).
Qed.

Lemma persistLocal_storage data w :
  localStorage (persistLocal data w)
  = if setItem_ok LS_KEY (JSON_stringify data)
    then <[LS_KEY := JSON_stringify data]> (localStorage w)
    else localStorage w.
Proof. unfold persistLocal. by destruct (setItem_ok _ _). Qed.

Lemma persistLocal_trace data w :
  trace (persistLocal data w)
  = trace w ++ [SetItem LS_KEY (JSON_stringify data)].
Proof. unfold persistLocal. by destruct (setItem_ok _ _). Qed.

Lemma persistLocal_state data w :
  rows (persistLocal data w) = rows w
  ∧ form (persistLocal data w) = form w
  ∧ submitting (persistLocal data w) = submitting w
  ∧ sheet (persistLocal data w) = sheet w.
Proof. unfold persistLocal. by destruct (setItem_ok _ _). Qed.

(** persistLocal writes one key. *)
Lemma persistLocal_other_keys data w key :
  key ≠ LS_KEY →
  localStorage (persistLocal data w) !! key = localStorage w !! key.
Proof.
  intros Hne. rewrite persistLocal_storage.
  destruct (setItem_ok _ _); [|done]. by rewrite lookup_insert_ne.
Qed.

(** What a load sees after a write: the round trip of the written list
    through JSON when the write went through, the old value when it did
    not. *)
Lemma loadLocal_persistLocal data w :
  (loadLocal (persistLocal data w)).1
  = if setItem_ok LS_KEY (JSON_stringify data)
    then default [] (JSON_parse (JSON_stringify data))
    else (loadLocal w).1.
Proof.
  rewrite !loadLocal_value, persistLocal_storage.
  destruct (setItem_ok _ _); [|done]. by rewrite lookup_insert_eq.
Qed.

(** C10.  Reading the local store right after persisting a list returns
    that list, for every list whose serialisation is stored (the write
    does not throw) and read back by JSON as the same list; and
    loadLocal returns the empty list when the stored value is absent or
    fails to parse.  loadLocal is a total function: it never throws.
    Without the condition on JSON: once the write has gone through, the
    store holds the serialisation of the list under the ledger key, and
    what is read is what JSON makes of that text, the empty list when
    it makes nothing of it.  A serialisation that succeeds need not read
    back: NaN is written as null. *)
Theorem persist_then_load (data : list Row) (w : World) :
  (setItem_ok LS_KEY (JSON_stringify data) = true →
   JSON_parse (JSON_stringify data) = Some data →
   (loadLocal (persistLocal data w)).1 = data)
  ∧ (localStorage w !! LS_KEY = None
     ∨ (∃ raw, localStorage w !! LS_KEY = Some raw ∧ JSON_parse raw = None) →
     (loadLocal w).1 = [])
  ∧ (setItem_ok LS_KEY (JSON_stringify data) = true →
     localStorage (persistLocal data w) !! LS_KEY = Some (JSON_stringify data)
     ∧ (loadLocal (persistLocal data w)).1
       = default [] (JSON_parse (JSON_stringify data))).
Proof.
  split; [|split].
  - intros Hok Hjson. by rewrite loadLocal_persistLocal, Hok, Hjson.
  - intros [Habsent | (raw & Hraw & Hparse)]; rewrite loadLocal_value.
    + by rewrite Habsent.
    + rewrite Hraw. simpl. by rewrite Hparse.
  - intros Hok. rewrite loadLocal_persistLocal, persistLocal_storage, Hok.
    by rewrite lookup_insert_eq.
Qed.

End LocalStoreFacts.

(** ** Loading *)

Section EngineFacts.
Context `{Runtime}.
Variable sheetUrl : option string.

Lemma load_from_local_rows w :
  rows (load_from_local w)
  = reverse (normalize (default [] (localStorage w !! LS_KEY ≫= JSON_parse))).
Proof.
  unfold load_from_local. rewrite <- loadLocal_value.
  by destruct (loadLocal w).
Qed.

Lemma load_from_local_rest w :
  trace (load_from_local w) = trace w ++ [GetItem LS_KEY]
  ∧ localStorage (load_from_local w) = localStorage w
  ∧ sheet (load_from_local w) = sheet w
  ∧ form (load_from_local w) = form w
  ∧ submitting (load_from_local w) = submitting w.
Proof.
  unfold load_from_local.
  pose proof (loadLocal_world w) as Hw.
  destruct (loadLocal w) as [local w']. simpl in Hw. by subst w'.
Qed.

(** Without an endpoint the page loads from the local store. *)
Lemma fetchData_local get w :
  endpoint sheetUrl = None →
  fetchData sheetUrl get w = load_from_local w.
Proof. intros E. unfold fetchData. by rewrite E. Qed.

(** With an endpoint and a readable answer, the rows are the normalised
    answer, newest first. *)
Lemma fetchData_remote url ok body data w :
  endpoint sheetUrl = Some url →
  JSON_parse body = Some data →
  fetchData sheetUrl (Resolves ok body) w
  = setRows (reverse (normalize data)) (perform (Fetch url None) w).
Proof. intros E Hp. unfold fetchData. by rewrite E, Hp. Qed.

(** C6.  On the page that has a local store (MontlyExp), with a remote
    endpoint configured, a load whose fetch fails (the transport fails
    or the body does not parse as JSON) does not fail itself: it
    continues with the local store, normalises what loadLocal returns
    and sets the in-memory rows from it, newest first.  The only
    effects are the request and the read of the local store.  (The
    older page, FinanceTracker, has no local store; its load fails.) *)
Theorem fetchData_falls_back (url : string) (get : FetchResult) (w : World) :
  endpoint sheetUrl = Some url →
  read_fails get = true →
  fetchData sheetUrl get w = load_from_local (perform (Fetch url None) w)
  ∧ rows (fetchData sheetUrl get w)
    = reverse (normalize (loadLocal w).1)
  ∧ trace (fetchData sheetUrl get w)
    = trace w ++ [Fetch url None; GetItem LS_KEY]
  ∧ localStorage (fetchData sheetUrl get w) = localStorage w.
Proof.
  intros E Hfail.
  assert (fetchData sheetUrl get w = load_from_local (perform (Fetch url None) w))
    as ->.
  { unfold fetchData. rewrite E. destruct get as [|ok body]; [done|].
    simpl in Hfail. apply bool_decide_eq_true in Hfail. by rewrite Hfail. }
  split; [done|]. rewrite load_from_local_rows, loadLocal_value.
  destruct (load_from_local_rest (perform (Fetch url None) w))
    as (-> & -> & _).
  cbn [perform trace localStorage]. by rewrite <- app_assoc.
Qed.

(** ** Submitting *)

Lemma rejected_iff f :
  rejected f = true
  ↔ date f = "" ∨ amount f = AmtStr "" ∨ amount f = AmtNum (Num 0).
Proof.
  unfold rejected, truthy_string.
  rewrite orb_true_iff, negb_true_iff, negb_false_iff, String.eqb_eq.
  split.
  - intros [Hd|Ha]; [by left|right].
    destruct (amount f) as [[z|]|s]; simpl in Ha; [|done|].
    + apply Z.eqb_eq in Ha. right. by subst.
    + apply String.eqb_eq in Ha. left. by subst.
  - intros [Hd|[Ha|Ha]]; [by left| |]; right; by rewrite Ha.
Qed.

(** A rejected submission only raises the validation notification:
    nothing is read, written or sent and the state stays as it is. *)
Lemma handleSubmit_rejected post get w :
  rejected (form w) = true →
  handleSubmit sheetUrl post get w
  = perform (SwalFire "Required" "Date & amount are required" "warning") w.
Proof. intros Hr. unfold handleSubmit. by rewrite Hr. Qed.

Lemma handleSubmit_rejected_unchanged post get w :
  rejected (form w) = true →
  let w' := handleSubmit sheetUrl post get w in
  rows w' = rows w ∧ form w' = form w ∧ localStorage w' = localStorage w
  ∧ sheet w' = sheet w
  ∧ filter (λ e, is_io e = true) (trace w')
    = filter (λ e, is_io e = true) (trace w).
Proof.
  intros Hr w'. subst w'. rewrite handleSubmit_rejected by done.
  cbn [perform rows form localStorage sheet trace].
  repeat split. rewrite filter_app. simpl. by rewrite app_nil_r.
Qed.


(** C5.  When the append goes to the remote store and the write fails
    (the transport fails or the status is not OK), a failure
    notification is raised and nothing is recorded: the remote sheet,
    the local store, the in-memory rows and the form are as before.
    The only other effect is the request that failed. *)
Theorem handleSubmit_write_failure (url : string) (post get : FetchResult)
    (w : World) :
  endpoint sheetUrl = Some url →
  rejected (form w) = false →
  write_fails post = true →
  let w' := handleSubmit sheetUrl post get w in
  rows w' = rows w
  ∧ form w' = form w
  ∧ localStorage w' = localStorage w
  ∧ sheet w' = sheet w
  ∧ submitting w' = false
  ∧ ∃ text,
      trace w'
      = trace w ++ [Fetch url (Some (form_data (rows w) (form w)));
                    SwalFire "Error" text "error"].
Proof.
  intros E Hvalid Hfail w'. subst w'. unfold handleSubmit.
  rewrite Hvalid, E.
  destruct post as [|[|] body]; [|done|]; cbn; rewrite <- app_assoc;
    repeat split; eauto.
Qed.

(** The reload keeps everything but the rows and the trace, and its
    rows depend on the local store and the answer only. *)
Lemma fetchData_rest get w :
  form (fetchData sheetUrl get w) = form w
  ∧ sheet (fetchData sheetUrl get w) = sheet w
  ∧ localStorage (fetchData sheetUrl get w) = localStorage w
  ∧ submitting (fetchData sheetUrl get w) = submitting w.
Proof.
  unfold fetchData. destruct (endpoint sheetUrl) as [url|].
  - destruct get as [|ok body].
    + by destruct (load_from_local_rest (perform (Fetch url None) w))
        as (_ & ? & ? & ? & ?).
    + destruct (JSON_parse body); [done|].
      by destruct (load_from_local_rest (perform (Fetch url None) w))
        as (_ & ? & ? & ? & ?).
  - by destruct (load_from_local_rest w) as (_ & ? & ? & ? & ?).
Qed.

Lemma fetchData_rows get w1 w2 :
  localStorage w1 = localStorage w2 →
  rows (fetchData sheetUrl get w1) = rows (fetchData sheetUrl get w2).
Proof.
  intros E. unfold fetchData. destruct (endpoint sheetUrl) as [url|].
  - destruct get as [|ok body].
    + rewrite !load_from_local_rows. cbn [perform localStorage]. by rewrite E.
    + destruct (JSON_parse body); [done|].
      rewrite !load_from_local_rows. cbn [perform localStorage]. by rewrite E.
  - rewrite !load_from_local_rows. by rewrite E.
Qed.

(** The world after an accepted submission without an endpoint. *)
Lemma handleSubmit_local post get w :
  endpoint sheetUrl = None →
  rejected (form w) = false →
  let updated := newRow (rows w) (form w) :: rows w in
  handleSubmit sheetUrl post get w
  = setSubmitting false
      (setForm empty
         (perform (SwalFire "Saved" "Transaction added (local)" "success")
            (setRows updated
               (persistLocal (reverse updated) (setSubmitting true w))))).
Proof. intros E Hvalid. unfold handleSubmit. by rewrite Hvalid, E. Qed.



End EngineFacts.

(** ** Deleting *)

Section DeleteFacts.
Context `{Runtime}.

(** Outside the list there is no row to describe: the handler throws
    before it asks. *)
Lemma handleDelete_out_of_range index confirmed w :
  (length (rows w) ≤ index)%nat → handleDelete index confirmed w = None.
Proof.
  intros Hlen. unfold handleDelete. by rewrite lookup_ge_None_2.
Qed.

(** C7.  A delete request on the newest-first in-memory list, at a
    position that holds an entry.  When the confirmation is declined
    nothing changes: the rows and the local store are as before and the
    only effect is the dialog.  When it is confirmed, the entry at the
    position is removed from the in-memory list, which gets one entry
    shorter, and persistLocal is called with exactly the remaining
    entries in chronological (reversed) order: the store then holds
    their serialisation under the ledger key, all other keys as before
    (it is left as it was only if `setItem` throws), and reads back as
    the remaining entries, oldest first, whenever JSON reads back what
    it wrote. *)
Theorem handleDelete_spec (index : nat) (r : Row) (w : World) :
  rows w !! index = Some r →
  handleDelete index false w
  = Some (perform (SwalConfirm "Delete entry?" (delete_text r)) w)
  ∧ ∃ w',
      handleDelete index true w = Some w'
      ∧ rows w' = delete index (rows w)
      ∧ S (length (rows w')) = length (rows w)
      ∧ trace w'
        = trace w ++ [SwalConfirm "Delete entry?" (delete_text r);
                      SetItem LS_KEY (JSON_stringify (reverse (rows w')));
                      SwalFire "Deleted" "Entry removed (local)" "success"]
      ∧ localStorage w'
        = localStorage
            (persistLocal (reverse (delete index (rows w))) w)
      ∧ localStorage w'
        = (if setItem_ok LS_KEY
                (JSON_stringify (reverse (delete index (rows w))))
           then <[LS_KEY := JSON_stringify (reverse (delete index (rows w)))]>
                  (localStorage w)
           else localStorage w)
      ∧ (setItem_ok LS_KEY
           (JSON_stringify (reverse (delete index (rows w)))) = true →
         localStorage w' !! LS_KEY
         = Some (JSON_stringify (reverse (delete index (rows w))))
         ∧ (JSON_parse (JSON_stringify (reverse (delete index (rows w))))
            = Some (reverse (delete index (rows w))) →
            (loadLocal w').1 = reverse (delete index (rows w)))).
Proof.
  intros Hr. unfold handleDelete. rewrite Hr. split; [done|].
  eexists. split; [done|].
  rewrite <- delete_take_drop.
  rewrite loadLocal_value.
  cbn [perform rows trace localStorage].
  destruct (persistLocal_state (reverse (delete index (rows w)))
              (setRows (delete index (rows w))
                 (perform (SwalConfirm "Delete entry?" (delete_text r)) w)))
    as (-> & _).
  rewrite persistLocal_trace, !persistLocal_storage.
  cbn [setRows perform rows trace localStorage].
  split; [done|]. split.
  { rewrite length_delete by eauto. apply lookup_lt_Some in Hr. lia. }
  split; [by rewrite <- !app_assoc|].
  split; [done|]. split; [done|].
  intros Hok. rewrite Hok, lookup_insert_eq. split; [done|].
  intros Hround. simpl. by rewrite Hround.
Qed.

End DeleteFacts.

(** ** The CSV export *)

Section ExporterFacts.
Context `{Runtime}.

Lemma append_nil_r s : s +:+ "" = s.
Proof.
  induction s as [|c s IH]; [done|].
  change (String c (s +:+ "") = String c s). by rewrite IH.
Qed.

Lemma append_assoc s1 s2 s3 : (s1 +:+ s2) +:+ s3 = s1 +:+ (s2 +:+ s3).
Proof.
  induction s1 as [|c s1 IH]; [done|].
  change (String c ((s1 +:+ s2) +:+ s3) = String c (s1 +:+ (s2 +:+ s3))).
  by rewrite IH.
Qed.

(** The outer replace takes away the comma the template puts at the
    end, and nothing else. *)
Lemma replace_trailing_comma_app s :
  replace_trailing_comma (s +:+ String comma "") = s.
Proof.
  induction s as [|c s IH]; [done|].
  change (String c s +:+ String comma "") with (String c (s +:+ String comma "")).
  cbn [replace_trailing_comma]. rewrite IH.
  by destruct s.
Qed.

(** The global replace doubles every quote. *)
Lemma replace_dquotes_doubles text :
  replace_dquotes text = escape_by_doubling text.
Proof.
  unfold escape_by_doubling.
  induction text as [|c text IH]; [done|].
  cbn [replace_dquotes list_ascii_of_string map concat]. rewrite IH.
  unfold dquote. by destruct (Ascii.eqb c "034").
Qed.

Lemma csv_text_quoted x : csv_text x = quoted x.
Proof.
  unfold csv_text, quoted. rewrite replace_dquotes_doubles.
  change (String dquote (escape_by_doubling x +:+ String dquote (String comma "")))
    with (String dquote "" +:+ (escape_by_doubling x +:+ (String dquote "" +:+ String comma ""))).
  rewrite <- !append_assoc. by rewrite replace_trailing_comma_app.
Qed.

(** Doubling loses nothing: the text is read back from its escaped
    form. *)
Lemma undouble_escape text : undouble (escape_by_doubling text) = Some text.
Proof.
  rewrite <- replace_dquotes_doubles.
  induction text as [|c text IH]; [done|].
  cbn [replace_dquotes]. unfold dquote.
  destruct (Ascii.eqb c "034") eqn:E.
  - apply Ascii.eqb_eq in E. subst c.
    cbn [undouble]. rewrite Ascii.eqb_refl, IH. done.
  - cbn [undouble]. rewrite E, IH. done.
Qed.

(** A quoted field begins and ends with a double quote. *)
Lemma quoted_shape text :
  quoted text = String dquote "" +:+ escape_by_doubling text +:+ String dquote "".
Proof. done. Qed.

Lemma concat_empty_cons x l :
  String.concat "" (x :: l) = x +:+ String.concat "" l.
Proof. destruct l; simpl; [by rewrite append_nil_r | done]. Qed.

Lemma join_cons sep x l :
  join sep (x :: l) = x +:+ String.concat "" (map (λ y, sep +:+ y) l).
Proof.
  revert x. induction l as [|y l IH]; intros x.
  - simpl. by rewrite append_nil_r.
  - change (join sep (x :: y :: l)) with (x +:+ sep +:+ join sep (y :: l)).
    rewrite IH. cbn [map]. rewrite concat_empty_cons.
    by rewrite append_assoc.
Qed.

Lemma csv_row_line r : csv_row r = row_line r.
Proof.
  unfold csv_row, row_line. rewrite !csv_text_quoted, !or_empty_id. done.
Qed.

Lemma csv_blob_format rs : csv_blob rs = csv_format rs.
Proof.
  unfold csv_blob, csv_format, csvRows. rewrite join_cons. f_equal.
  rewrite map_map. f_equal. apply map_ext. intros r. by rewrite csv_row_line.
Qed.

(** C9.  The export of the page that has a local store (MontlyExp)
    hands out, under the name finance-tracker.csv, the
    header line Date,Name,Description,Type,Amount,Balance followed by
    one line per in-memory row; on each line the four text fields (the
    date as shown, the name, the description, the type) are wrapped in
    double quotes with their inner double quotes doubled, and the
    amount and the balance are written as bare numbers; the fields are
    separated by commas and the lines by line feeds.  (The older page,
    FinanceTracker, writes the fields as they are, without quotes.) *)
Theorem downloadExcel_format (w : World) :
  downloadExcel w
  = perform (Download "finance-tracker.csv" (csv_format (rows w))) w
  ∧ ∀ text, undouble (escape_by_doubling text) = Some text.
Proof.
  split; [|apply undouble_escape].
  unfold downloadExcel. by rewrite csv_blob_format.
Qed.

End ExporterFacts.

(** ** JSON on the ASCII runtime: writing, then reading *)

Section AsciiRuntimeFacts.
Import AsciiRuntime.

Lemma append_cons c s t : String c s +:+ t = String c (s +:+ t).
Proof. done. Qed.

Lemma lex_json_char c acc rest out :
  lex (json_char c +:+ rest) (InString acc) out
  = lex rest (InString (c :: acc)) out.
Proof.
  destruct c as [[] [] [] [] [] [] [] []]; reflexivity.
Qed.

Lemma string_of_list_ascii_app l1 l2 :
  string_of_list_ascii (l1 ++ l2)
  = string_of_list_ascii l1 +:+ string_of_list_ascii l2.
Proof.
  induction l1 as [|c l1 IH]; [done|].
  change (String c (string_of_list_ascii (l1 ++ l2))
          = String c (string_of_list_ascii l1 +:+ string_of_list_ascii l2)).
  by rewrite IH.
Qed.

Lemma text_of_cons c acc : text_of (c :: acc) = text_of acc +:+ String c "".
Proof.
  unfold text_of. by rewrite reverse_cons, string_of_list_ascii_app.
Qed.

Lemma lex_json_chars s acc rest out :
  lex (json_chars s +:+ String dquote rest) (InString acc) out
  = lex rest Idle (TString (text_of acc +:+ s) :: out).
Proof.
  revert acc. induction s as [|c s IH]; intros acc.
  - change (json_chars "" +:+ String dquote rest) with (String dquote rest).
    by rewrite append_nil_r.
  - change (json_chars (String c s)) with (json_char c +:+ json_chars s).
    rewrite append_assoc, lex_json_char, IH, text_of_cons, append_assoc.
    done.
Qed.

Lemma lex_json_string s rest out :
  lex (json_string s +:+ rest) Idle out = lex rest Idle (TString s :: out).
Proof.
  unfold json_string. rewrite append_cons, append_assoc.
  change (String dquote "" +:+ rest) with (String dquote rest).
  change (lex (String dquote (json_chars s +:+ String dquote rest)) Idle out)
    with (lex (json_chars s +:+ String dquote rest) (InString []) out).
  by rewrite lex_json_chars.
Qed.

(** Numbers: the digits that are written read back as the number. *)

Lemma digit_value_char d :
  (d < 10)%N → digit_value (digit_char d) = Some (Z.of_N d).
Proof.
  intros Hd.
  assert (d = 0 ∨ d = 1 ∨ d = 2 ∨ d = 3 ∨ d = 4 ∨ d = 5 ∨ d = 6 ∨ d = 7
          ∨ d = 8 ∨ d = 9)%N as Hcases by lia.
  repeat (destruct Hcases as [-> | Hcases]; [reflexivity|]).
  by subst.
Qed.

Lemma read_digits_of fuel n acc :
  (n < 10 ^ N.of_nat fuel)%N →
  read (digits_of fuel n acc) 0 = read acc (Z.of_N n)
  ∧ all_digits (digits_of fuel n acc) = all_digits acc.
Proof.
  revert n acc. induction fuel as [|fuel IH]; intros n acc Hn.
  - simpl in Hn. assert (n = 0%N) as -> by lia. done.
  - cbn [digits_of].
    assert (n mod 10 < 10)%N as Hmod by (apply N.mod_lt; lia).
    destruct (N.ltb_spec n 10) as [Hsmall|Hbig].
    + rewrite N.mod_small by done. cbn [read all_digits].
      rewrite digit_value_char by done. split; [done|].
      rewrite bool_decide_eq_true_2 by eauto. done.
    + assert (n `div` 10 < 10 ^ N.of_nat fuel)%N as Hdiv.
      { apply N.Div0.div_lt_upper_bound.
        rewrite Nat2N.inj_succ, N.pow_succ_r' in Hn. lia. }
      destruct (IH (n `div` 10)%N (String (digit_char (n mod 10)) acc) Hdiv)
        as [-> ->].
      cbn [read all_digits]. rewrite digit_value_char by done.
      rewrite bool_decide_eq_true_2 by eauto. split; [|done].
      f_equal. pose proof (N.div_mod n 10). lia.
Qed.

Lemma log2_fuel n : (n < 10 ^ N.of_nat (S (N.to_nat (N.log2 n))))%N.
Proof.
  rewrite Nat2N.inj_succ, N2Nat.id.
  destruct (N.eq_dec n 0%N) as [->|Hn]; [done|].
  pose proof (N.log2_spec n ltac:(lia)) as [_ Hlt].
  eapply N.lt_le_trans; [exact Hlt|].
  apply N.pow_le_mono_l. lia.
Qed.

Lemma string_of_N_read n :
  read (string_of_N n) 0 = Z.of_N n ∧ all_digits (string_of_N n) = true.
Proof.
  unfold string_of_N.
  destruct (read_digits_of (S (N.to_nat (N.log2 n))) n "" (log2_fuel n))
    as [-> ->]. done.
Qed.


Lemma digits_of_nonempty fuel n acc :
  acc ≠ "" → digits_of fuel n acc ≠ "".
Proof.
  revert n acc. induction fuel as [|fuel IH]; intros n acc Hacc; [done|].
  cbn [digits_of]. destruct (n <? 10)%N; [done|]. by apply IH.
Qed.

Lemma string_of_N_nonempty n : string_of_N n ≠ "".
Proof.
  unfold string_of_N. cbn [digits_of].
  destruct (n <? 10)%N; [done|]. by apply digits_of_nonempty.
Qed.

Lemma lex_idle_digit c d out :
  digit_value c = Some d →
  lex_idle c out = Some (InNumber false (Some d), out).
Proof.
  destruct c as [[] [] [] [] [] [] [] []]; cbv; intros; simplify_eq; done.
Qed.

Lemma lex_digits s neg v rest out :
  all_digits s = true →
  lex (s +:+ rest) (InNumber neg (Some v)) out
  = lex rest (InNumber neg (Some (read s v))) out.
Proof.
  revert v. induction s as [|c s IH]; intros v Hs; [done|].
  cbn [all_digits] in Hs. apply andb_true_iff in Hs as [Hc Hs].
  apply bool_decide_eq_true in Hc as [d Hd].
  rewrite append_cons. cbn [lex read]. rewrite Hd. by apply IH.
Qed.

Lemma lex_unsigned n rest out :
  lex (string_of_N n +:+ rest) Idle out
  = lex rest (InNumber false (Some (Z.of_N n))) out.
Proof.
  destruct (string_of_N_read n) as [Hread Hall].
  pose proof (string_of_N_nonempty n) as Hne.
  destruct (string_of_N n) as [|c s]; [done|].
  cbn [all_digits] in Hall. apply andb_true_iff in Hall as [Hc Hs].
  apply bool_decide_eq_true in Hc as [d Hd].
  cbn [read] in Hread. rewrite Hd in Hread.
  rewrite append_cons. cbn [lex]. rewrite (lex_idle_digit c d) by done.
  cbn [mbind option_bind]. rewrite lex_digits by done.
  change (10 * 0 + d)%Z with d in Hread. by rewrite Hread.
Qed.

Lemma lex_negative n rest out :
  lex (String "-" (string_of_N n) +:+ rest) Idle out
  = lex rest (InNumber true (Some (Z.of_N n))) out.
Proof.
  destruct (string_of_N_read n) as [Hread Hall].
  pose proof (string_of_N_nonempty n) as Hne.
  destruct (string_of_N n) as [|c s]; [done|].
  cbn [all_digits] in Hall. apply andb_true_iff in Hall as [Hc Hs].
  apply bool_decide_eq_true in Hc as [d Hd].
  cbn [read] in Hread. rewrite Hd in Hread.
  rewrite !append_cons.
  change (lex (String "-" (String c (s +:+ rest))) Idle out)
    with (lex (String c (s +:+ rest)) (InNumber true None) out).
  cbn [lex]. rewrite Hd. cbn [default].
  rewrite lex_digits by done.
  change (10 * 0 + d)%Z with d in Hread. change (10 * 0 + d)%Z with d.
  by rewrite Hread.
Qed.

Lemma lex_number_end c rest neg v out :
  digit_value c = None →
  lex (String c rest) (InNumber neg (Some v)) out
  = lex (String c rest) Idle (TNumber (if neg then - v else v)%Z :: out).
Proof. intros Hc. cbn [lex]. by rewrite Hc. Qed.

Lemma lex_json_number z c rest out :
  digit_value c = None →
  lex (json_number (Num z) +:+ String c rest) Idle out
  = lex (String c rest) Idle (TNumber z :: out).
Proof.
  intros Hc. unfold json_number, string_of_number.
  destruct (Z.ltb_spec z 0) as [Hneg|Hpos].
  - rewrite lex_negative, lex_number_end by done.
    do 3 f_equal. lia.
  - rewrite lex_unsigned, lex_number_end by done.
    do 3 f_equal. lia.
Qed.

(** Punctuation and the members of an object. *)

Lemma lex_open_object rest out :
  lex ("{" +:+ rest) Idle out = lex rest Idle (TOpenObject :: out).
Proof. done. Qed.
Lemma lex_close_object rest out :
  lex ("}" +:+ rest) Idle out = lex rest Idle (TCloseObject :: out).
Proof. done. Qed.
Lemma lex_comma rest out :
  lex ("," +:+ rest) Idle out = lex rest Idle (TComma :: out).
Proof. done. Qed.
Lemma lex_colon rest out :
  lex (":" +:+ rest) Idle out = lex rest Idle (TColon :: out).
Proof. done. Qed.

Lemma lex_json_number_comma z rest out :
  lex (json_number (Num z) +:+ "," +:+ rest) Idle out
  = lex rest Idle (TComma :: TNumber z :: out).
Proof.
  change ("," +:+ rest) with (String "," rest).
  by rewrite lex_json_number.
Qed.

Lemma lex_json_number_close z rest out :
  lex (json_number (Num z) +:+ "}" +:+ rest) Idle out
  = lex rest Idle (TCloseObject :: TNumber z :: out).
Proof.
  change ("}" +:+ rest) with (String "}" rest).
  by rewrite lex_json_number.
Qed.

Ltac lex_step :=
  first [ rewrite lex_json_string | rewrite lex_json_number_comma
        | rewrite lex_json_number_close | rewrite lex_open_object
        | rewrite lex_close_object | rewrite lex_comma | rewrite lex_colon ].

Lemma lex_json_row r rest out :
  finite_row r = true →
  lex (json_row r +:+ rest) Idle out
  = lex rest Idle (reverse (tokens_of_row r) ++ out).
Proof.
  destruct r as [d n ds t [[z|]|s] [[b|]|]]; try done; intros _;
    unfold json_row, json_member, tokens_of_row;
    cbn [date name description type amount balance app join json_amount
         token_of_number];
    rewrite !append_assoc; repeat lex_step; reflexivity.
Qed.

Lemma lex_json_rows data rest out :
  Forall (λ r, finite_row r = true) data →
  lex (join "," (map json_row data) +:+ rest) Idle out
  = lex rest Idle (reverse (tokens_of_list data) ++ out).
Proof.
  intros Hfin. revert out.
  induction Hfin as [|r data Hr Hdata IH]; intros out; [done|].
  destruct data as [|r' data].
  - cbn [map join tokens_of_list]. by apply lex_json_row.
  - change (join "," (map json_row (r :: r' :: data)))
      with (json_row r +:+ "," +:+ join "," (map json_row (r' :: data))).
    rewrite !append_assoc, lex_json_row, lex_comma, IH by done.
    cbn [tokens_of_list]. rewrite reverse_app, reverse_cons.
    by rewrite <- !app_assoc.
Qed.

Lemma lex_stringify data :
  Forall (λ r, finite_row r = true) data →
  lex (stringify data) Idle [] = Some (tokens_of_rows data).
Proof.
  intros Hfin. unfold stringify.
  change ("[" +:+ join "," (map json_row data) +:+ "]")
    with (String "[" (join "," (map json_row data) +:+ "]")).
  change (lex (String "[" (join "," (map json_row data) +:+ "]")) Idle [])
    with (lex (join "," (map json_row data) +:+ "]") Idle [TOpenArray]).
  rewrite lex_json_rows by done.
  change (lex "]" Idle (reverse (tokens_of_list data) ++ [TOpenArray]))
    with (Some (reverse (TCloseArray :: reverse (tokens_of_list data) ++ [TOpenArray]))).
  unfold tokens_of_rows.
  by rewrite reverse_cons, reverse_app, reverse_involutive.
Qed.

(** From the tokens back to the rows. *)

Lemma parse_row r rest seen o :
  finite_row r = true →
  ∃ o',
    parse_tokens (tokens_of_row r ++ rest) ArrayOpen seen o
    = parse_tokens rest ObjectClosed (r :: seen) o'
    ∧ parse_tokens (tokens_of_row r ++ rest) AfterObjectComma seen o
      = parse_tokens rest ObjectClosed (r :: seen) o'.
Proof.
  destruct r as [d n ds t [[z|]|s] [[b|]|]]; try done; intros _;
    eexists; split; reflexivity.
Qed.

Lemma parse_list data seen o :
  Forall (λ r, finite_row r = true) data →
  data ≠ [] →
  parse_tokens (tokens_of_list data ++ [TCloseArray]) ArrayOpen seen o
  = Some (reverse seen ++ data)
  ∧ parse_tokens (tokens_of_list data ++ [TCloseArray]) AfterObjectComma seen o
    = Some (reverse seen ++ data).
Proof.
  intros Hfin. revert seen o.
  induction Hfin as [|r data Hr Hdata IH]; intros seen o Hne; [done|].
  destruct data as [|r' data].
  - cbn [tokens_of_list].
    destruct (parse_row r [TCloseArray] seen o Hr) as (o' & -> & ->).
    cbn [parse_tokens]. by rewrite reverse_cons.
  - change (tokens_of_list (r :: r' :: data))
      with (tokens_of_row r ++ TComma :: tokens_of_list (r' :: data)).
    rewrite <- app_assoc.
    destruct (parse_row r ((TComma :: tokens_of_list (r' :: data)) ++ [TCloseArray])
                seen o Hr) as (o' & -> & ->).
    change (parse_tokens ((TComma :: tokens_of_list (r' :: data)) ++ [TCloseArray])
              ObjectClosed (r :: seen) o')
      with (parse_tokens (tokens_of_list (r' :: data) ++ [TCloseArray])
              AfterObjectComma (r :: seen) o').
    destruct (IH (r :: seen) o' ltac:(done)) as [_ ->].
    by rewrite reverse_cons, <- app_assoc.
Qed.

(** What is written for rows without NaN is read back as the same rows. *)
Lemma parse_stringify data :
  Forall (λ r, finite_row r = true) data →
  parse (stringify data) = Some data.
Proof.
  intros Hfin. unfold parse. rewrite lex_stringify by done.
  cbn [mbind option_bind]. unfold tokens_of_rows.
  destruct data as [|r data]; [done|].
  change (parse_tokens (TOpenArray :: tokens_of_list (r :: data) ++ [TCloseArray])
            AtStart [] [])
    with (parse_tokens (tokens_of_list (r :: data) ++ [TCloseArray])
            ArrayOpen [] []).
  by destruct (parse_list (r :: data) [] [] Hfin ltac:(done)) as [-> _].
Qed.

(** On this runtime the hypotheses of the round trip hold for every list
    of rows without NaN: what persistLocal stores, loadLocal returns. *)
Corollary loadLocal_persistLocal_ascii (data : list Row) (w : World) :
  Forall (λ r, finite_row r = true) data →
  (loadLocal (persistLocal data w)).1 = data.
Proof.
  intros Hfin. rewrite loadLocal_persistLocal.
  change (setItem_ok LS_KEY (JSON_stringify data)) with true.
  change (JSON_parse (JSON_stringify data)) with (parse (stringify data)).
  by rewrite parse_stringify.
Qed.

End AsciiRuntimeFacts.

(** ** The page at work

    The scenarios of the specification and the theorems above at
    concrete ledgers, on [ascii_runtime]. *)

Section Scenarios.
Import Scenario.

(** IN 100 then OUT 30: balances 100 and 70, and 70 comes first on
    display. *)
Example normalize_in_out :
  balance <$> normalize [in100; out30] = [Some (Num 100); Some (Num 70)]
  ∧ balance <$> reverse (normalize [in100; out30])
    = [Some (Num 70); Some (Num 100)].
Proof. by vm_compute. Qed.

(** An amount that is not numeric counts as 0, and a type in lower case
    counts as its upper case. *)
Example normalize_soft :
  normalize [entry "d1" "in" (AmtStr "12"); entry "d2" "Out" (AmtStr "abc")]
  = [ {| date := "d1"; name := ""; description := ""; type := "in";
         amount := AmtNum (Num 12); balance := Some (Num 12) |};
      {| date := "d2"; name := ""; description := ""; type := "Out";
         amount := AmtNum (Num 0); balance := Some (Num 12) |} ].
Proof. by vm_compute. Qed.

(** The summaries compare the type as it is written: for an income in
    lower case the current balance is not the total income minus the
    total expense. *)
Example summaries_differ_in_lower_case :
  let rows := reverse (normalize [entry "d1" "in" (AmtNum (Num 5))]) in
  currentBalance rows = Num 5
  ∧ sub (totalIn rows) (totalOut rows) = Num 0.
Proof. by vm_compute. Qed.

(** Appending IN 50 to an empty ledger: the current balance is 50. *)
Example append_to_empty :
  let w' := handleSubmit None Rejects Rejects
              (fresh (entry "2025-02-01" "IN" (AmtStr "50"))) in
  currentBalance (rows w') = Num 50
  ∧ JSON_parse <$> (localStorage w' !! LS_KEY) = Some (Some (rows w')).
Proof. by vm_compute. Qed.

(** Appending INOUT 40 to a ledger at 70: the balance stays 70. *)
Example append_inout :
  let w := showing [in100; out30] (entry "2025-02-01" "INOUT" (AmtStr "40")) in
  let w' := handleSubmit None Rejects Rejects w in
  currentBalance (rows w) = Num 70
  ∧ length (rows w') = 3%nat
  ∧ currentBalance (rows w') = Num 70.
Proof. by vm_compute. Qed.

(** Submitting without a date: rejected, nothing but the warning. *)
Example submit_without_date :
  let w := stored [in100; out30] (entry "" "IN" (AmtStr "50")) in
  handleSubmit remote (Resolves true "") (Resolves true "[]") w
  = perform (SwalFire "Required" "Date & amount are required" "warning") w.
Proof. by apply handleSubmit_rejected. Qed.

(** A local store that holds text which is not JSON reads as empty. *)
Example load_corrupt :
  let w := setLocalStorage {[ LS_KEY := "{not json" ]} initial in
  (loadLocal w).1 = []
  ∧ rows (fetchData None Rejects w) = [].
Proof. by vm_compute. Qed.

(** C4 at an amount of zero.  The form holds what the amount field
    delivers for a typed 0, the text 0.  The entry is not rejected: it
    is appended with amount 0, persisted and reported as saved. *)
Theorem handleSubmit_accepts_zero_text :
  let w := fresh (entry "2025-02-01" "IN" (AmtStr "0")) in
  let w' := handleSubmit None Rejects Rejects w in
  Number (amount (form w)) = Num 0
  ∧ rejected (form w) = false
  ∧ rows w'
    = [ {| date := "2025-02-01"; name := ""; description := ""; type := "IN";
           amount := AmtNum (Num 0); balance := Some (Num 0) |} ]
  ∧ trace w'
    = [ SetItem LS_KEY (JSON_stringify (rows w'));
        SwalFire "Saved" "Transaction added (local)" "success" ].
Proof. by vm_compute. Qed.

(** The number 0, which the amount field never delivers, is
    rejected. *)
Example handleSubmit_rejects_zero_number :
  rejected (entry "2025-02-01" "IN" (AmtNum (Num 0))) = true
  ∧ rejected (entry "2025-02-01" "IN" (AmtStr "")) = true
  ∧ rejected (entry "" "IN" (AmtStr "5")) = true.
Proof. done. Qed.


(** Deleting the middle entry of three, confirmed: two entries stay,
    with the balances they had, and the local store holds them oldest
    first. *)
Example delete_middle_of_three :
  let w := stored [in100; out30; out5] empty in
  ∃ w', handleDelete 1 true w = Some w'
    ∧ (date <$> rows w) = ["2025-01-03"; "2025-01-02"; "2025-01-01"]
    ∧ (date <$> rows w') = ["2025-01-03"; "2025-01-01"]
    ∧ (balance <$> rows w') = [Some (Num 65); Some (Num 100)]
    ∧ (date <$> (loadLocal w').1) = ["2025-01-01"; "2025-01-03"]
    ∧ (loadLocal w').1 = reverse (rows w').
Proof. eexists. by vm_compute. Qed.

(** The same request, declined. *)
Example delete_declined :
  let w := stored [in100; out30; out5] empty in
  ∃ w', handleDelete 1 false w = Some w'
    ∧ rows w' = rows w
    ∧ localStorage w' = localStorage w
    ∧ trace w' = trace w ++ [SwalConfirm "Delete entry?" "02 Jan 2025 ·  · ₹30"].
Proof. eexists. by vm_compute. Qed.

(** The export of a ledger whose texts hold a comma and quotes. *)
Example export_quotes :
  csv_blob
    [ {| date := "2025-01-02"; name := "Rao, K."; description := "6" +:+ String dquote " pipe";
         type := "OUT"; amount := AmtNum (Num 30); balance := Some (Num 70) |} ]
  = "Date,Name,Description,Type,Amount,Balance" +:+ newline
    +:+ String dquote "02 Jan 2025" +:+ String dquote ","
    +:+ String dquote "Rao, K." +:+ String dquote ","
    +:+ String dquote "6" +:+ String dquote (String dquote " pipe") +:+ String dquote ","
    +:+ String dquote "OUT" +:+ String dquote ",30,70".
Proof. by vm_compute. Qed.

(** *** The theorems with hypotheses, at concrete ledgers *)

Lemma fetchData_falls_back_witness :
  let w := stored [in100; out30] empty in
  let get := Resolves true "<html>Service unavailable</html>" in
  endpoint remote = Some "https://sheet.example/exec"
  ∧ read_fails get = true
  ∧ rows (fetchData remote get w) = reverse (normalize (loadLocal w).1)
  ∧ (balance <$> reverse (normalize (loadLocal w).1))
    = [Some (Num 70); Some (Num 100)].
Proof.
  split; [reflexivity|]. split; [vm_compute; reflexivity|].
  split; [|vm_compute; reflexivity].
  exact (proj1 (proj2
    (fetchData_falls_back remote "https://sheet.example/exec"
       (Resolves true "<html>Service unavailable</html>")
       (stored [in100; out30] empty) eq_refl eq_refl))).
Defined.

Lemma handleSubmit_write_failure_witness :
  let w := stored [in100; out30] (entry "2025-02-01" "IN" (AmtStr "50")) in
  let w' := handleSubmit remote (Resolves false "") Rejects w in
  endpoint remote = Some "https://sheet.example/exec"
  ∧ rejected (form w) = false
  ∧ write_fails (Resolves false "") = true
  ∧ rows w' = rows w
  ∧ form w' = form w
  ∧ localStorage w' = localStorage w
  ∧ sheet w' = sheet w.
Proof.
  split; [reflexivity|]. split; [reflexivity|]. split; [reflexivity|].
  pose proof
    (handleSubmit_write_failure remote "https://sheet.example/exec"
       (Resolves false "") Rejects
       (stored [in100; out30] (entry "2025-02-01" "IN" (AmtStr "50")))
       eq_refl eq_refl eq_refl) as (Hrows & Hform & Hls & Hsheet & _).
  exact (conj Hrows (conj Hform (conj Hls Hsheet))).
Defined.


Lemma handleDelete_spec_witness :
  let w := stored [in100; out30; out5] empty in
  let r := annotate (Num 100) out30 in
  let remaining := reverse (delete 1%nat (rows w)) in
  rows w !! 1%nat = Some r
  ∧ setItem_ok LS_KEY (JSON_stringify remaining) = true
  ∧ JSON_parse (JSON_stringify remaining) = Some remaining
  ∧ (date <$> remaining) = ["2025-01-01"; "2025-01-03"]
  ∧ handleDelete 1 false w
    = Some (perform (SwalConfirm "Delete entry?" (delete_text r)) w)
  ∧ ∃ w', handleDelete 1 true w = Some w'
      ∧ rows w' = delete 1%nat (rows w)
      ∧ S (length (rows w')) = length (rows w)
      ∧ localStorage w' !! LS_KEY = Some (JSON_stringify remaining)
      ∧ (loadLocal w').1 = remaining.
Proof.
  split; [reflexivity|]. split; [reflexivity|].
  split; [vm_compute; reflexivity|]. split; [vm_compute; reflexivity|].
  pose proof
    (handleDelete_spec 1 (annotate (Num 100) out30)
       (stored [in100; out30; out5] empty) eq_refl)
    as (Hno & w' & Hyes & Hrows & Hlen & _ & _ & _ & Hstore).
  split; [exact Hno|].
  exists w'.
  refine (conj Hyes (conj Hrows (conj Hlen
            (conj (proj1 (Hstore eq_refl)) (proj2 (Hstore eq_refl) _))))).
  vm_compute; reflexivity.
Defined.

Lemma persist_then_load_witness :
  let data := normalize [in100; out30] in
  (setItem_ok LS_KEY (JSON_stringify data) = true
   ∧ JSON_parse (JSON_stringify data) = Some data
   ∧ (loadLocal (persistLocal data initial)).1 = data)
  ∧ (localStorage initial !! LS_KEY = None
     ∧ (loadLocal initial).1 = [])
  ∧ localStorage (persistLocal data initial) !! LS_KEY
    = Some (JSON_stringify data).
Proof.
  pose proof (persist_then_load (normalize [in100; out30]) initial)
    as (Hround & Hempty & Hstored).
  split; [|split].
  - split; [reflexivity|].
    split; [vm_compute; reflexivity|].
    apply Hround; [reflexivity | vm_compute; reflexivity].
  - split; [reflexivity|]. apply Hempty. left. reflexivity.
  - exact (proj1 (Hstored eq_refl)).
Defined.

(** With a storage that refuses the value, persistLocal leaves the
    store as it was and a load still returns the old list. *)
Example persist_over_quota :
  let w := @persistLocal ascii_runtime [in100] initial in
  let w' := @persistLocal (quota_runtime 16) [in100; out30] w in
  localStorage w' = localStorage w
  ∧ (@loadLocal (quota_runtime 16) w').1 = [in100].
Proof. by vm_compute. Qed.

(** JSON has no NaN.  A row whose amount and balance are NaN is
    serialised (both are written as null) and stored, and what is read
    afterwards is not the list that was persisted. *)
Lemma persist_then_load_loses_NaN :
  let data := [ {| date := "2025-01-01"; name := ""; description := "";
                   type := "IN"; amount := AmtNum NaN; balance := Some NaN |} ] in
  setItem_ok LS_KEY (JSON_stringify data) = true
  ∧ localStorage (persistLocal data initial) !! LS_KEY
    = Some (JSON_stringify data)
  ∧ substring 61 28 (JSON_stringify data)
    = String dquote "amount" +:+ String dquote ":null,"
      +:+ String dquote "balance" +:+ String dquote ":null"
  ∧ (loadLocal (persistLocal data initial)).1 ≠ data.
Proof. vm_compute. repeat split. discriminate. Qed.

(** The fold on doubles, where it rounds.  After 2^53 has come in, one
    more unit is lost: 2^53 + 1 is not a double.  The balance ends at 0
    where the sum of the IN amounts minus the sum of the OUT amounts
    is 1. *)
Lemma final_balance_rounds :
  let big := AmtNum (Num 9007199254740992) in
  let raw := [entry "2025-01-01" "IN" big;
              entry "2025-01-02" "IN" (AmtNum (Num 1));
              entry "2025-01-03" "OUT" big] in
  (sum_of_kind "IN" raw - sum_of_kind "OUT" raw)%Z = 1%Z
  ∧ Binary64.balances raw
    = [Binary64.of_Z 9007199254740992; Binary64.of_Z 9007199254740992;
       Binary64.zero]
  ∧ Binary64.currentBalance raw = Binary64.zero
  ∧ Binary64.currentBalance raw
    ≠ Binary64.of_Z (sum_of_kind "IN" raw - sum_of_kind "OUT" raw).
Proof. vm_compute. repeat split. discriminate. Qed.

Lemma final_balance_is_in_minus_out_witness :
  let raw := [in100; out30; out5] in
  exact_arithmetic raw
  ∧ Binary64.currentBalance raw = Binary64.of_Z 65
  ∧ currentBalance (reverse (normalize raw)) = Num 65.
Proof.
  assert (exact_arithmetic [in100; out30; out5]) as Hexact.
  { split; repeat constructor; vm_compute; discriminate. }
  split; [exact Hexact|].
  pose proof (final_balance_is_in_minus_out [in100; out30; out5] Hexact)
    as (Hdouble & _ & Hexactly & _).
  exact (conj Hdouble Hexactly).
Defined.

(** The fold on doubles, where it overflows.  An amount beyond the
    largest double is read as Infinity; Infinity minus Infinity is NaN
    and stays NaN; the page then shows the balance 0, NaN being
    falsy. *)
Example balance_overflows :
  let huge := AmtNum (Num (2 ^ 1024)) in
  let raw := [entry "2025-01-01" "IN" huge; entry "2025-01-02" "OUT" huge;
              entry "2025-01-03" "IN" (AmtNum (Num 5))] in
  Binary64.balances raw
  = [SpecFloat.S754_infinity false; SpecFloat.S754_nan; SpecFloat.S754_nan]
  ∧ Binary64.currentBalance raw = Binary64.zero.
Proof. by vm_compute. Qed.

(** The older page at a failed read: the load fails, although the
    local store of the browser holds a ledger. *)
Lemma FinanceTracker_load_has_no_fallback :
  let w := stored [in100; out30] empty in
  endpoint remote = Some "https://sheet.example/exec"
  ∧ (loadLocal w).1 = [in100; out30]
  ∧ read_fails Rejects = true
  ∧ read_fails (Resolves true "<html>Service unavailable</html>") = true
  ∧ FinanceTracker.fetchData remote Rejects w = None
  ∧ FinanceTracker.fetchData remote
      (Resolves true "<html>Service unavailable</html>") w = None.
Proof. by vm_compute. Qed.

(** The export of the older page: the fields as they are, no quotes,
    the date as stored; not the format of the newer page. *)
Lemma FinanceTracker_export_is_not_quoted :
  let r := {| date := "2025-01-02"; name := "Rao, K."; description := "pipe";
              type := "OUT"; amount := AmtNum (Num 30);
              balance := Some (Num 70) |} in
  let w := setRows [r] initial in
  FinanceTracker.downloadExcel w
  = perform
      (Download "finance-tracker.csv"
         ("Date,Name,Description,Type,Amount,Balance" +:+ String "010" ""
          +:+ "2025-01-02,Rao, K.,pipe,OUT,30,70")) w
  ∧ FinanceTracker.csv_blob [r] ≠ csv_format [r].
Proof. vm_compute. split; [reflexivity | discriminate]. Qed.

End Scenarios.

(** ** The older page *)

Section FinanceTrackerFacts.
Context `{Runtime}.
Variable sheetUrl : option string.

(** Its load normalises with the same fold, so what is proved of
    [normalize] holds for it. *)
Lemma FinanceTracker_fetchData_rows url ok body data w :
  endpoint sheetUrl = Some url →
  JSON_parse body = Some data →
  rows <$> FinanceTracker.fetchData sheetUrl (Resolves ok body) w
  = Some (reverse (normalize data)).
Proof.
  intros E Hp. unfold FinanceTracker.fetchData. by rewrite E, Hp.
Qed.

(** It has no fallback: a failed read is a failed load. *)
Lemma FinanceTracker_fetchData_fails url get w :
  endpoint sheetUrl = Some url →
  read_fails get = true →
  FinanceTracker.fetchData sheetUrl get w = None.
Proof.
  intros E Hfail. unfold FinanceTracker.fetchData. rewrite E.
  destruct get as [|ok body]; [done|].
  simpl in Hfail. apply bool_decide_eq_true in Hfail. by rewrite Hfail.
Qed.

(** A failed write leaves its state alone, too. *)
Lemma FinanceTracker_write_failure url post get w :
  endpoint sheetUrl = Some url →
  FinanceTracker.rejected (form w) = false →
  write_fails post = true →
  let w' := FinanceTracker.handleSubmit sheetUrl post get w in
  rows w' = rows w ∧ form w' = form w ∧ localStorage w' = localStorage w
  ∧ sheet w' = sheet w.
Proof.
  intros E Hvalid Hfail w'. subst w'. unfold FinanceTracker.handleSubmit.
  rewrite E, Hvalid. by destruct post as [|[|] body].
Qed.

End FinanceTrackerFacts.

(** * Further properties

    What follows goes beyond the statements of the specification: the
    behaviour of the same functions at their edges, what they leave
    untouched, and how they compose. *)

(** ** The fold over a growing ledger *)

Section NormalizerMore.
Context `{Runtime}.

(** `map` with a captured variable over a concatenation: the second
    part starts from the state the first part ends in. *)
Lemma map_with_app {S A B} (f : S → A → S * B) s l1 l2 :
  map_with f s (l1 ++ l2)
  = map_with f s l1 ++ map_with f (foldl (λ s x, (f s x).1) s l1) l2.
Proof.
  revert s. induction l1 as [|x l1 IH]; intros s; [done|].
  cbn [app map_with foldl]. destruct (f s x) as [s' y]. simpl. by rewrite IH.
Qed.

(** The value of [bal] after the rows [raw]. *)
Lemma balance_after z raw :
  foldl (λ bal r, (normalize_row bal r).1) (Num z) raw
  = Num (z + sum_of_kind "IN" raw - sum_of_kind "OUT" raw).
Proof.
  revert z. induction raw as [|r raw IH]; intros z.
  - simpl. f_equal. change (sum_of_kind "IN" []) with 0%Z.
    change (sum_of_kind "OUT" []) with 0%Z. lia.
  - cbn [foldl]. rewrite normalize_row_annotate. cbn [fst].
    destruct (step_value z r raw) as (z' & -> & Hsum).
    rewrite IH. f_equal. lia.
Qed.

(** X1.  Later entries do not change earlier ones.  Normalising a ledger
    followed by more entries gives the normalised ledger, followed by
    the further entries folded from the balance of its last row (from 0
    when the ledger is empty); so the first entries of the result are
    the normalised ledger itself. *)
Theorem normalize_app (raw more : list Row) :
  normalize (raw ++ more)
  = normalize raw
    ++ map_with normalize_row
         (default (Num 0) (last (normalize raw) ≫= balance)) more
  ∧ take (length raw) (normalize (raw ++ more)) = normalize raw.
Proof.
  assert (normalize (raw ++ more)
          = normalize raw
            ++ map_with normalize_row
                 (default (Num 0) (last (normalize raw) ≫= balance)) more)
    as E.
  { unfold normalize at 1 2. rewrite map_with_app, balance_after.
    rewrite last_balance_value. do 3 f_equal. }
  split; [exact E|].
  rewrite E. rewrite take_app_length'; [done|].
  unfold normalize. by rewrite map_with_length.
Qed.

(** Every row the fold emits carries its amount as a number that is not
    NaN, and a balance. *)
Lemma normalize_from_coerced bal raw :
  Forall (λ r, (∃ a, amount r = AmtNum a ∧ a ≠ NaN) ∧ is_Some (balance r))
    (map_with normalize_row bal raw).
Proof.
  revert bal. induction raw as [|r raw IH]; intros bal; [constructor|].
  rewrite normalize_from_cons. constructor; [|apply IH].
  destruct (coerced_amount_is_Num r) as [c Hc].
  unfold annotate. cbn [amount balance]. rewrite Hc. split; [|by eexists].
  by exists (Num c).
Qed.

Lemma sum_of_kind_perm kind raw raw' :
  raw ≡ₚ raw' → sum_of_kind kind raw = sum_of_kind kind raw'.
Proof.
  induction 1 as [|x l l' _ IH|x y l|l l' l'' _ IH1 _ IH2]; [done| | |congruence].
  - rewrite !sum_of_kind_cons, IH. done.
  - rewrite !sum_of_kind_cons.
    destruct (String.eqb (entry_kind x) kind), (String.eqb (entry_kind y) kind);
      destruct (coerced_amount x), (coerced_amount y); lia.
Qed.

(** X2.  On doubles, the balance the page shows after a load does not
    depend on the order in which the entries are stored, as long as the
    amounts are integers whose magnitudes add up to at most 2^53: two
    such ledgers with the same entries in a different order end in the
    same balance.  (Beyond that bound the order matters: the sums
    round.) *)
Theorem final_balance_permutation (raw raw' : list Row) :
  raw ≡ₚ raw' →
  (absolute_total raw ≤ 2 ^ 53)%Z →
  Binary64.currentBalance raw = Binary64.currentBalance raw'.
Proof.
  intros Hp Hbound.
  assert (absolute_total raw' ≤ 2 ^ 53)%Z as Hbound'
    by (by rewrite <- (absolute_total_perm _ _ Hp)).
  rewrite !currentBalance_exact by (apply exact_of_total; simpl; lia).
  by rewrite (sum_of_kind_perm "IN" _ _ Hp), (sum_of_kind_perm "OUT" _ _ Hp).
Qed.

(** X3.  The summaries over a loaded ledger, on doubles.  When the
    types are written in upper case and the amounts are integers whose
    magnitudes add up to at most 2^53, the total income is the sum of
    the coerced amounts of the IN entries, the total expense that of
    the OUT entries, and the current balance is their difference. *)
Theorem summaries_of_normalized (raw : list Row) :
  Forall (λ r, toUpperCase (type r) = type r) raw →
  (absolute_total raw ≤ 2 ^ 53)%Z →
  Binary64.totalIn raw = Binary64.of_Z (sum_of_kind "IN" raw)
  ∧ Binary64.totalOut raw = Binary64.of_Z (sum_of_kind "OUT" raw)
  ∧ Binary64.currentBalance raw
    = Binary64.sub (Binary64.totalIn raw) (Binary64.totalOut raw).
Proof.
  intros Hup Hbound.
  assert (Binary64.totalIn raw = Binary64.of_Z (sum_of_kind "IN" raw)) as Ein
    by (apply total_exact; auto).
  assert (Binary64.totalOut raw = Binary64.of_Z (sum_of_kind "OUT" raw)) as Eout
    by (apply total_exact; auto).
  split; [done|]. split; [done|].
  rewrite Ein, Eout, currentBalance_exact by (apply exact_of_total; simpl; lia).
  pose proof (sum_of_kind_bound "IN" raw ltac:(auto)).
  pose proof (sum_of_kind_bound "OUT" raw ltac:(auto)).
  symmetry. apply sub_exact; [lia|lia|].
  rewrite sum_of_kind_signed. pose proof (signed_total_bound raw). lia.
Qed.

(** The fold does not tell an annotated entry from the entry it was
    made of: it reads neither the old balance nor more of the amount
    than its coercion. *)
Lemma normalize_row_annotated previous bal r :
  normalize_row bal (annotate previous r) = normalize_row bal r.
Proof.
  unfold normalize_row, annotate, coerced_amount.
  cbn [date name description type amount Number].
  by rewrite or_zero_idem.
Qed.

Lemma normalized_alike bal raw :
  Forall2 (λ a r, ∀ bal', normalize_row bal' a = normalize_row bal' r)
    (map_with normalize_row bal raw) raw.
Proof.
  revert bal. induction raw as [|r raw IH]; intros bal; [constructor|].
  rewrite normalize_from_cons. constructor; [|apply IH].
  intros bal'. apply normalize_row_annotated.
Qed.

Lemma map_with_alike bal l l' :
  Forall2 (λ a r, ∀ bal', normalize_row bal' a = normalize_row bal' r) l l' →
  map_with normalize_row bal l = map_with normalize_row bal l'
  ∧ foldl (λ b r, (normalize_row b r).1) bal l
    = foldl (λ b r, (normalize_row b r).1) bal l'.
Proof.
  intros Hl. revert bal.
  induction Hl as [|a r l l' Har _ IH]; intros bal; [done|].
  cbn [map_with foldl]. rewrite Har.
  destruct (normalize_row bal r) as [bal' y]. cbn [fst].
  destruct (IH bal') as [-> ->]. done.
Qed.

(** Position [i] of the newest-first list is position
    [length - 1 - i] of the chronological one. *)
Lemma reverse_delete_reverse {A} (l : list A) i :
  (i < length l)%nat →
  reverse (delete i (reverse l)) = delete (length l - S i) l.
Proof.
  intros Hi. rewrite !delete_take_drop, reverse_app.
  rewrite reverse_drop, reverse_take, !length_reverse, reverse_involutive.
  by replace (S (length l - S i)) with (length l - i)%nat by lia.
Qed.

End NormalizerMore.

(** ** The local store *)

Section LocalStoreMore.
Context `{Runtime}.

(** X4.  persistLocal writes one key.  Every other key of the storage
    keeps its value, the state of the component and the remote sheet
    are as before, and the only effect is the one `setItem`. *)
Theorem persistLocal_frame (data : list Row) (w : World) (key : string) :
  key ≠ LS_KEY →
  localStorage (persistLocal data w) !! key = localStorage w !! key
  ∧ rows (persistLocal data w) = rows w
  ∧ form (persistLocal data w) = form w
  ∧ submitting (persistLocal data w) = submitting w
  ∧ sheet (persistLocal data w) = sheet w
  ∧ trace (persistLocal data w)
    = trace w ++ [SetItem LS_KEY (JSON_stringify data)].
Proof.
  intros Hkey. split; [by apply persistLocal_other_keys|].
  destruct (persistLocal_state data w) as (? & ? & ? & ?).
  by rewrite persistLocal_trace.
Qed.

(** X5.  The last write wins.  When the second of two writes goes
    through, the store, and what loadLocal reads from it, are what they
    would be had the first write not happened. *)
Theorem persistLocal_overwrites (first second : list Row) (w : World) :
  setItem_ok LS_KEY (JSON_stringify second) = true →
  localStorage (persistLocal second (persistLocal first w))
  = localStorage (persistLocal second w)
  ∧ (loadLocal (persistLocal second (persistLocal first w))).1
    = (loadLocal (persistLocal second w)).1.
Proof.
  intros Hok.
  assert (localStorage (persistLocal second (persistLocal first w))
          = localStorage (persistLocal second w)) as E.
  { rewrite !persistLocal_storage, Hok.
    destruct (setItem_ok LS_KEY (JSON_stringify first)); [|done].
    apply insert_insert_eq. }
  split; [exact E|]. by rewrite !loadLocal_value, E.
Qed.

(** X6.  A write that throws is swallowed.  When `setItem` throws (the
    quota is exceeded), the storage is as before, loadLocal returns what
    it returned before, the rows on display are untouched and no
    notification is raised: the entry is lost without a sign. *)
Theorem persistLocal_failure_is_silent (data : list Row) (w : World) :
  setItem_ok LS_KEY (JSON_stringify data) = false →
  localStorage (persistLocal data w) = localStorage w
  ∧ (loadLocal (persistLocal data w)).1 = (loadLocal w).1
  ∧ rows (persistLocal data w) = rows w
  ∧ ∀ title text icon, SwalFire title text icon ∈ trace (persistLocal data w) →
                       SwalFire title text icon ∈ trace w.
Proof.
  intros Hno.
  assert (localStorage (persistLocal data w) = localStorage w) as E
    by (by rewrite persistLocal_storage, Hno).
  split; [exact E|]. split; [by rewrite !loadLocal_value, E|].
  split; [apply persistLocal_state|].
  intros title text icon. rewrite persistLocal_trace, elem_of_app.
  intros [?|Hin]; [done|]. apply list_elem_of_singleton in Hin. done.
Qed.

(** Reading back what a write has stored, from any world with that
    store. *)
Lemma loadLocal_after_persist data w w' :
  localStorage w' = localStorage (persistLocal data w) →
  setItem_ok LS_KEY (JSON_stringify data) = true →
  JSON_parse (JSON_stringify data) = Some data →
  (loadLocal w').1 = data.
Proof.
  intros Hls Hok Hround.
  rewrite loadLocal_value, Hls, <- loadLocal_value, loadLocal_persistLocal.
  by rewrite Hok, Hround.
Qed.

End LocalStoreMore.

(** ** Loading and submitting *)

Section EngineMore.
Context `{Runtime}.
Variable sheetUrl : option string.

(** What a load adds to the trace. *)
Lemma fetchData_trace get w :
  ∃ added,
    trace (fetchData sheetUrl get w) = trace w ++ added
    ∧ Forall (λ e, e = GetItem LS_KEY ∨ ∃ url, e = Fetch url None) added.
Proof.
  unfold fetchData. destruct (endpoint sheetUrl) as [url|].
  - assert (∃ added,
              trace (load_from_local (perform (Fetch url None) w))
              = trace w ++ added
              ∧ Forall (λ e, e = GetItem LS_KEY ∨ ∃ url, e = Fetch url None)
                  added) as Hlocal.
    { exists [Fetch url None; GetItem LS_KEY]. split.
      - rewrite (proj1 (load_from_local_rest _)). simpl.
        by rewrite <- app_assoc.
      - constructor; [right; by eexists|].
        constructor; [by left|]. constructor. }
    destruct get as [|ok body]; [done|].
    destruct (JSON_parse body); [|done].
    exists [Fetch url None]. split; [done|].
    constructor; [right; by eexists|]. constructor.
  - exists [GetItem LS_KEY]. split.
    + by rewrite (proj1 (load_from_local_rest _)).
    + constructor; [by left|]. constructor.
Qed.

(** On every path the rows a load sets are a normalised list,
    reversed. *)
Lemma fetchData_rows_normalized get w :
  ∃ data, rows (fetchData sheetUrl get w) = reverse (normalize data).
Proof.
  unfold fetchData. destruct (endpoint sheetUrl) as [url|].
  - destruct get as [|ok body]; [eexists; apply load_from_local_rows|].
    destruct (JSON_parse body) as [data|]; [by exists data|].
    eexists; apply load_from_local_rows.
  - eexists; apply load_from_local_rows.
Qed.

(** X7.  After a load, whatever the endpoint and however the request
    ends, every row on display carries its amount as a number, never a
    text and never NaN (a text that is not numeric has become 0), and
    carries a balance: none is missing. *)
Theorem fetchData_rows_coerced (get : FetchResult) (w : World) :
  Forall (λ r, (∃ a, amount r = AmtNum a ∧ a ≠ NaN) ∧ is_Some (balance r))
    (rows (fetchData sheetUrl get w)).
Proof.
  destruct (fetchData_rows_normalized get w) as [data ->].
  apply Forall_reverse, normalize_from_coerced.
Qed.

(** X8.  A load only reads.  It leaves the local store, the remote
    sheet, the form and the submitting flag as they are, and its only
    effects are reads: a `getItem` of the ledger key and a GET of the
    endpoint.  It writes nothing and raises no dialog, also when the
    request fails. *)
Theorem fetchData_frame (get : FetchResult) (w : World) :
  let w' := fetchData sheetUrl get w in
  localStorage w' = localStorage w
  ∧ sheet w' = sheet w
  ∧ form w' = form w
  ∧ submitting w' = submitting w
  ∧ ∃ added,
      trace w' = trace w ++ added
      ∧ Forall (λ e, e = GetItem LS_KEY ∨ ∃ url, e = Fetch url None) added.
Proof.
  intros w'. subst w'.
  destruct (fetchData_rest sheetUrl get w) as (Hform & Hsheet & Hls & Hsub).
  repeat (split; [done|]). apply fetchData_trace.
Qed.

(** X9.  A load replaces the rows on display: what it shows does not
    depend on what was shown before.  Hence loading twice with the same
    answer shows the same rows as loading once. *)
Theorem fetchData_discards_rows (get : FetchResult) (shown : list Row)
    (w : World) :
  rows (fetchData sheetUrl get (setRows shown w))
  = rows (fetchData sheetUrl get w)
  ∧ rows (fetchData sheetUrl get (fetchData sheetUrl get w))
    = rows (fetchData sheetUrl get w).
Proof.
  split.
  - by apply fetchData_rows.
  - apply fetchData_rows. apply (fetchData_rest sheetUrl get w).
Qed.

(** X10.  The `finally` block.  After a submission that passed
    validation the submitting flag is off on every path: saved locally,
    saved remotely, refused by the endpoint, transport failure.  A
    submission that is rejected by validation returns before the flag is
    touched. *)
Theorem handleSubmit_finally (post get : FetchResult) (w : World) :
  submitting (handleSubmit sheetUrl post get w)
  = if rejected (form w) then submitting w else false.
Proof.
  unfold handleSubmit. destruct (rejected (form w)); [done|].
  destruct (endpoint sheetUrl) as [url|]; [|done].
  by destruct post as [|[|] body].
Qed.

(** X11.  Without an endpoint a submission stays on the machine: its
    outcome does not depend on the network, the remote sheet is as
    before and no request is made. *)
Theorem handleSubmit_local_no_network (post get : FetchResult) (w : World) :
  endpoint sheetUrl = None →
  let w' := handleSubmit sheetUrl post get w in
  w' = handleSubmit sheetUrl Rejects Rejects w
  ∧ sheet w' = sheet w
  ∧ ∀ url body, Fetch url body ∈ trace w' → Fetch url body ∈ trace w.
Proof.
  intros E w'. subst w'. unfold handleSubmit. rewrite E.
  split; [done|].
  destruct (rejected (form w)).
  - split; [done|]. intros url body. simpl. rewrite elem_of_app.
    intros [?|Hin]; [done|]. apply list_elem_of_singleton in Hin. done.
  - split.
    { cbn [sheet setSubmitting setForm perform setRows].
      by rewrite (proj2 (proj2 (proj2 (persistLocal_state _ _)))). }
    intros url body. cbn [trace setSubmitting setForm perform setRows].
    rewrite persistLocal_trace. cbn [trace setSubmitting].
    rewrite !elem_of_app.
    intros [[?|Hin]|Hin]; [done| |]; apply list_elem_of_singleton in Hin; done.
Qed.

(** X12.  With an endpoint a submission never writes the local store,
    whether the entry is saved or not: the store is as before and no
    `setItem` is performed.  The local list that a failed read falls
    back to is therefore not fed by remote submissions. *)
Theorem handleSubmit_remote_no_store (url : string) (post get : FetchResult)
    (w : World) :
  endpoint sheetUrl = Some url →
  let w' := handleSubmit sheetUrl post get w in
  localStorage w' = localStorage w
  ∧ ∀ key value, SetItem key value ∈ trace w' → SetItem key value ∈ trace w.
Proof.
  intros E w'. subst w'. unfold handleSubmit. rewrite E.
  destruct (rejected (form w)).
  { split; [done|]. intros key value. simpl. rewrite elem_of_app.
    intros [?|Hin]; [done|]. apply list_elem_of_singleton in Hin. done. }
  destruct post as [|[|] body].
  - split; [done|]. intros key value. simpl. rewrite !elem_of_app.
    intros [[?|Hin]|Hin]; [done| |]; apply list_elem_of_singleton in Hin; done.
  - cbn [remote_append].
    match goal with
    | |- context [fetchData sheetUrl get ?w0] =>
        destruct (fetchData_rest sheetUrl get w0) as (_ & _ & Hls & _);
        destruct (fetchData_trace get w0) as (added & Htr & Hadded)
    end.
    split; [cbn [localStorage setSubmitting]; by rewrite Hls|].
    intros key value. cbn [trace setSubmitting]. rewrite Htr. simpl.
    rewrite !elem_of_app.
    intros [[[?|Hin]|Hin]|Hin]; [done| | |].
    + apply list_elem_of_singleton in Hin. done.
    + apply list_elem_of_singleton in Hin. done.
    + rewrite Forall_forall in Hadded.
      destruct (Hadded _ Hin) as [?|[? ?]]; done.
  - split; [done|]. intros key value. simpl. rewrite !elem_of_app.
    intros [[?|Hin]|Hin]; [done| |]; apply list_elem_of_singleton in Hin; done.
Qed.

(** The rows and the store after an accepted submission without an
    endpoint. *)
Lemma handleSubmit_local_stored post get w :
  endpoint sheetUrl = None →
  rejected (form w) = false →
  let w' := handleSubmit sheetUrl post get w in
  rows w' = newRow (rows w) (form w) :: rows w
  ∧ localStorage w'
    = localStorage (persistLocal (reverse (rows w')) w).
Proof.
  intros E Hvalid w'. subst w'. rewrite handleSubmit_local by done.
  split; [done|]. cbn [rows localStorage setSubmitting setForm perform setRows].
  by rewrite !persistLocal_storage.
Qed.

(** X13.  After an accepted submission without an endpoint the store
    and the display agree: when the write goes through and JSON reads
    it back, loadLocal returns the rows on display in chronological
    order, the new entry last. *)
Theorem handleSubmit_local_in_sync (post get : FetchResult) (w : World) :
  endpoint sheetUrl = None →
  rejected (form w) = false →
  let w' := handleSubmit sheetUrl post get w in
  setItem_ok LS_KEY (JSON_stringify (reverse (rows w'))) = true →
  JSON_parse (JSON_stringify (reverse (rows w'))) = Some (reverse (rows w')) →
  (loadLocal w').1 = reverse (rows w')
  ∧ head (reverse (loadLocal w').1) = Some (newRow (rows w) (form w)).
Proof.
  intros E Hvalid w' Hok Hround.
  destruct (handleSubmit_local_stored post get w E Hvalid) as [Hrows Hls].
  fold w' in Hrows, Hls.
  assert ((loadLocal w').1 = reverse (rows w')) as Hsync
    by (by apply (loadLocal_after_persist _ w)).
  split; [exact Hsync|].
  by rewrite Hsync, reverse_involutive, Hrows.
Qed.

(** The entry handleSubmit builds is the entry the fold would build,
    when the type is one the fold reads as it is written and the amount
    is a number. *)
Lemma newRow_annotate rs f amt :
  toUpperCase (type f) = type f →
  Number (amount f) = Num amt →
  annotate (currentBalance rs) (newRow rs f) = newRow rs f.
Proof.
  intros Hup Hamt.
  unfold annotate, newRow, newBalance, signedAmount, entry_kind, coerced_amount.
  cbn [date name description type amount balance Number].
  rewrite Hup, Hamt, or_zero_Num.
  destruct (String.eqb (type f) "IN"); [done|].
  destruct (String.eqb (type f) "OUT").
  - by rewrite sub_add_neg.
  - by rewrite add_zero_r.
Qed.

(** X14.  The balance handleSubmit computes by one addition is the
    balance the load computes by folding the whole ledger.  On a page
    that shows a loaded ledger, with a form whose type is written in
    upper case (as the three options of the select are) and whose
    amount is a number, an accepted local submission leaves exactly the
    rows a reload would show: the normalised ledger with the form entry
    added at its end. *)
Theorem handleSubmit_local_reload_agrees (raw : list Row) (amt : Z)
    (post get reload : FetchResult) (w : World) :
  endpoint sheetUrl = None →
  rows w = reverse (normalize raw) →
  rejected (form w) = false →
  toUpperCase (type (form w)) = type (form w) →
  Number (amount (form w)) = Num amt →
  let w' := handleSubmit sheetUrl post get w in
  setItem_ok LS_KEY (JSON_stringify (reverse (rows w'))) = true →
  JSON_parse (JSON_stringify (reverse (rows w'))) = Some (reverse (rows w')) →
  rows (fetchData sheetUrl reload w') = rows w'
  ∧ rows w' = reverse (normalize (raw ++ [raw_entry (form w)])).
Proof.
  intros E Hrows Hvalid Hup Hamt w' Hok Hround.
  destruct (handleSubmit_local_stored post get w E Hvalid) as [Hrows' Hls].
  fold w' in Hrows', Hls.
  assert ((loadLocal w').1 = reverse (rows w')) as Hsync
    by (by apply (loadLocal_after_persist _ w)).
  assert (reverse (rows w') = normalize raw ++ [newRow (rows w) (form w)])
    as Hchron.
  { by rewrite Hrows', reverse_cons, Hrows, reverse_involutive. }
  assert (normalize (normalize raw ++ [newRow (rows w) (form w)])
          = normalize raw ++ [newRow (rows w) (form w)]) as Hfix.
  { unfold normalize at 1. rewrite map_with_app.
    destruct (map_with_alike (Num 0) _ _ (normalized_alike (Num 0) raw))
      as [Hmap Hfold].
    fold (normalize raw) in Hmap, Hfold. rewrite Hmap, Hfold.
    rewrite balance_after. fold (normalize raw). f_equal.
    replace (Num (0 + sum_of_kind "IN" raw - sum_of_kind "OUT" raw))
      with (currentBalance (rows w))
      by (rewrite Hrows, final_balance_value; f_equal; lia).
    rewrite normalize_from_cons. cbn [map_with].
    by rewrite (newRow_annotate _ _ amt). }
  split.
  - rewrite (fetchData_local sheetUrl reload w' E), load_from_local_rows.
    rewrite <- loadLocal_value, Hsync, Hchron, Hfix, <- Hchron.
    apply reverse_involutive.
  - rewrite <- (reverse_involutive (rows w')), Hchron. f_equal.
    rewrite <- Hfix. unfold normalize at 1 3. rewrite !map_with_app.
    destruct (map_with_alike (Num 0) _ _ (normalized_alike (Num 0) raw))
      as [Hmap Hfold].
    fold (normalize raw) in Hmap, Hfold. rewrite Hmap, Hfold.
    by f_equal.
Qed.

End EngineMore.

(** ** Deleting, and loading again *)

Section DeleteMore.
Context `{Runtime}.
Variable sheetUrl : option string.

(** The world a confirmed delete leaves. *)
Lemma handleDelete_confirmed index w w' :
  handleDelete index true w = Some w' →
  ∃ r,
    rows w !! index = Some r
    ∧ w' = perform (SwalFire "Deleted" "Entry removed (local)" "success")
             (persistLocal (reverse (delete index (rows w)))
                (setRows (delete index (rows w))
                   (perform (SwalConfirm "Delete entry?" (delete_text r)) w))).
Proof.
  unfold handleDelete. destruct (rows w !! index) as [r|]; [|done].
  cbn [negb]. rewrite <- delete_take_drop. intros [= <-]. by exists r.
Qed.

(** X15.  handleDelete fails exactly outside the list.  At an index
    that holds no row, [rows[index]] is undefined and reading its date
    throws before the dialog is shown; at every index that holds a row
    the handler runs, whatever the answer of the dialog. *)
Theorem handleDelete_throws_iff (index : nat) (confirmed : bool) (w : World) :
  handleDelete index confirmed w = None ↔ (length (rows w) ≤ index)%nat.
Proof.
  unfold handleDelete. rewrite <- lookup_ge_None.
  destruct (rows w !! index) as [r|]; [|done].
  split; [|done]. by destruct confirmed.
Qed.

(** X16.  A delete is local.  It never contacts the endpoint and leaves
    the remote sheet, the form and the submitting flag as they are, also
    when an endpoint is configured; so a reload that the endpoint
    answers shows the same rows as if nothing had been deleted. *)
Theorem handleDelete_local_only (index : nat) (confirmed : bool)
    (w w' : World) :
  handleDelete index confirmed w = Some w' →
  sheet w' = sheet w
  ∧ form w' = form w
  ∧ submitting w' = submitting w
  ∧ (∀ url body, Fetch url body ∈ trace w' → Fetch url body ∈ trace w)
  ∧ ∀ url ok body data,
      endpoint sheetUrl = Some url →
      JSON_parse body = Some data →
      rows (fetchData sheetUrl (Resolves ok body) w')
      = rows (fetchData sheetUrl (Resolves ok body) w).
Proof.
  intros Hdel.
  assert (sheet w' = sheet w ∧ form w' = form w ∧ submitting w' = submitting w
          ∧ ∀ url body, Fetch url body ∈ trace w' → Fetch url body ∈ trace w)
    as (Hsheet & Hform & Hsub & Htrace).
  { destruct confirmed.
    - destruct (handleDelete_confirmed _ _ _ Hdel) as (r & _ & ->).
      cbn [sheet form submitting trace perform].
      destruct (persistLocal_state (reverse (delete index (rows w)))
                  (setRows (delete index (rows w))
                     (perform (SwalConfirm "Delete entry?" (delete_text r)) w)))
        as (_ & -> & -> & ->).
      repeat (split; [done|]).
      intros url body. rewrite persistLocal_trace. cbn [trace setRows perform].
      rewrite !elem_of_app.
      intros [[[?|Hin]|Hin]|Hin]; [done| | |];
        apply list_elem_of_singleton in Hin; done.
    - unfold handleDelete in Hdel.
      destruct (rows w !! index) as [r|]; [|done].
      cbn [negb] in Hdel. injection Hdel as <-.
      repeat (split; [done|]).
      intros url body. cbn [trace perform]. rewrite elem_of_app.
      intros [?|Hin]; [done|]. apply list_elem_of_singleton in Hin. done. }
  repeat (split; [done|]).
  intros url ok body data E Hparse.
  by rewrite !(fetchData_remote sheetUrl url ok body data).
Qed.

(** X17.  A delete does not recompute.  The rows that remain keep the
    balances they had, and unless the newest row is the one deleted the
    balance the page shows stays what it was, whatever the amount of the
    deleted entry. *)
Theorem handleDelete_stale_balances (index : nat) (w w' : World) :
  handleDelete index true w = Some w' →
  (balance <$> rows w') = delete index (balance <$> rows w)
  ∧ (index ≠ 0%nat → currentBalance (rows w') = currentBalance (rows w)).
Proof.
  intros Hdel. destruct (handleDelete_confirmed _ _ _ Hdel) as (r & Hr & ->).
  cbn [rows perform]. rewrite (proj1 (persistLocal_state _ _)).
  cbn [rows setRows]. split; [apply list_fmap_delete|].
  intros Hpos. destruct index as [|index]; [done|].
  by destruct (rows w).
Qed.

(** X18.  The next load puts the balances right.  On a page without an
    endpoint that shows a loaded ledger, after a confirmed delete whose
    write goes through the store holds the remaining rows in
    chronological order, and a reload shows the ledger normalised
    without the deleted entry: position [index] of the display is
    position [length - 1 - index] of the ledger. *)
Theorem handleDelete_then_reload (raw : list Row) (index : nat)
    (reload : FetchResult) (w w' : World) :
  endpoint sheetUrl = None →
  rows w = reverse (normalize raw) →
  handleDelete index true w = Some w' →
  setItem_ok LS_KEY (JSON_stringify (reverse (rows w'))) = true →
  JSON_parse (JSON_stringify (reverse (rows w'))) = Some (reverse (rows w')) →
  (loadLocal w').1 = reverse (rows w')
  ∧ rows (fetchData sheetUrl reload w')
    = reverse (normalize (delete (length raw - S index) raw)).
Proof.
  intros E Hrows Hdel Hok Hround.
  destruct (handleDelete_confirmed _ _ _ Hdel) as (r & Hr & Hw').
  assert (rows w' = delete index (rows w)) as Hrows'.
  { rewrite Hw'. cbn [rows perform]. by rewrite (proj1 (persistLocal_state _ _)). }
  assert (localStorage w'
          = localStorage (persistLocal (reverse (rows w')) w)) as Hls.
  { rewrite Hrows', Hw'. cbn [localStorage perform].
    by rewrite !persistLocal_storage. }
  assert ((loadLocal w').1 = reverse (rows w')) as Hsync
    by (by apply (loadLocal_after_persist _ w)).
  split; [exact Hsync|].
  rewrite (fetchData_local sheetUrl reload w' E), load_from_local_rows.
  rewrite <- loadLocal_value, Hsync, Hrows', Hrows. f_equal.
  apply lookup_lt_Some in Hr.
  rewrite Hrows, length_reverse in Hr. unfold normalize in Hr.
  rewrite map_with_length in Hr.
  rewrite reverse_delete_reverse
    by (unfold normalize; by rewrite map_with_length).
  replace (length (normalize raw)) with (length raw)
    by (unfold normalize; by rewrite map_with_length).
  apply map_with_alike, Forall2_delete, normalized_alike.
Qed.

End DeleteMore.

(** ** Reading the export back *)

Section ExporterMore.
Context `{Runtime}.

(** A quoted field ends where its closing quote is followed by a comma:
    what precedes and what follows are determined by the text. *)
Lemma replace_dquotes_delimited a a' rest rest' :
  replace_dquotes a +:+ String dquote (String comma rest)
  = replace_dquotes a' +:+ String dquote (String comma rest') →
  a = a' ∧ rest = rest'.
Proof.
  revert a'. induction a as [|c a IH]; intros [|c' a']; cbn [replace_dquotes].
  - intros [= ->]. done.
  - destruct (Ascii.eqb_spec c' dquote) as [->|Hc']; cbn [String.append];
      intros Heq; exfalso; injection Heq; unfold comma, dquote in *;
      intros; congruence.
  - destruct (Ascii.eqb_spec c dquote) as [->|Hc]; cbn [String.append];
      intros Heq; exfalso; injection Heq; unfold comma, dquote in *;
      intros; congruence.
  - destruct (Ascii.eqb_spec c dquote) as [->|Hc],
             (Ascii.eqb_spec c' dquote) as [->|Hc']; cbn [String.append];
      intros Heq.
    + injection Heq as Hrest. destruct (IH _ Hrest) as [-> ->]. done.
    + exfalso. injection Heq. intros; congruence.
    + exfalso. injection Heq. intros; congruence.
    + injection Heq as -> Hrest. destruct (IH _ Hrest) as [-> ->]. done.
Qed.

Lemma quoted_delimited a a' rest rest' :
  quoted a +:+ "," +:+ rest = quoted a' +:+ "," +:+ rest' →
  a = a' ∧ rest = rest'.
Proof.
  unfold quoted. rewrite <- !replace_dquotes_doubles.
  change (String dquote (replace_dquotes a) +:+ String dquote "")
    with (String dquote (replace_dquotes a +:+ String dquote "")).
  change (String dquote (replace_dquotes a') +:+ String dquote "")
    with (String dquote (replace_dquotes a' +:+ String dquote "")).
  rewrite !append_cons, !append_assoc. intros [= Heq].
  by apply replace_dquotes_delimited.
Qed.

(** X19.  A line of the export can be read in one way only.  Two rows
    that are written as the same line show the same date and have the
    same name, description and type, commas and quotes in them
    included, and the same two numbers at the end of the line. *)
Theorem csv_row_unambiguous (r1 r2 : Row) :
  csv_row r1 = csv_row r2 →
  formatDate (date r1) = formatDate (date r2)
  ∧ name r1 = name r2
  ∧ description r1 = description r2
  ∧ type r1 = type r2
  ∧ NumberToString (Number (amount r1)) +:+ ","
      +:+ NumberToString (Number_of_balance (balance r1))
    = NumberToString (Number (amount r2)) +:+ ","
      +:+ NumberToString (Number_of_balance (balance r2)).
Proof.
  rewrite !csv_row_line. unfold row_line. intros Heq.
  apply quoted_delimited in Heq as [Hdate Heq].
  apply quoted_delimited in Heq as [Hname Heq].
  apply quoted_delimited in Heq as [Hdesc Heq].
  apply quoted_delimited in Heq as [Htype Heq].
  done.
Qed.

End ExporterMore.

(** ** The older page, compared *)

Section FinanceTrackerMore.
Context `{Runtime}.
Variable sheetUrl : option string.

Lemma string_length_append s t :
  String.length (s +:+ t) = (String.length s + String.length t)%nat.
Proof. induction s as [|c s IH]; simpl; [done|]. by rewrite IH. Qed.

(** X20.  The export of the older page is ambiguous.  A comma inside a
    name cannot be told from the comma between name and description:
    for all texts, the row whose name is `left,right` and the row whose
    description starts with `right,` are different rows written as the
    same line. *)
Theorem FinanceTracker_export_ambiguous (d left right ds t : string)
    (a : Amount) (b : option number) :
  let r1 := {| date := d; name := left +:+ "," +:+ right; description := ds;
               type := t; amount := a; balance := b |} in
  let r2 := {| date := d; name := left; description := right +:+ "," +:+ ds;
               type := t; amount := a; balance := b |} in
  r1 ≠ r2 ∧ FinanceTracker.csv_row r1 = FinanceTracker.csv_row r2.
Proof.
  intros r1 r2. subst r1 r2. split.
  - intros [= Hname _]. apply (f_equal String.length) in Hname.
    rewrite string_length_append in Hname. simpl in Hname. lia.
  - unfold FinanceTracker.csv_row.
    cbn [join date name description type amount balance].
    by rewrite !append_assoc.
Qed.

(** X21.  The two validation guards compared.  The older page rejects
    what the newer page rejects and, in addition, an amount that is the
    number NaN; on every form whose amount is a text, as the amount
    input delivers it, the two guards agree. *)
Theorem FinanceTracker_rejected_compared (f : Row) :
  FinanceTracker.rejected f
  = rejected f || match amount f with AmtNum NaN => true | _ => false end.
Proof.
  unfold FinanceTracker.rejected, rejected, FinanceTracker.truthy_amount.
  destruct (truthy_string (date f)); [|done]. cbn [negb orb].
  destruct (amount f) as [[z|]|s]; simpl.
  - destruct (z =? 0)%Z; done.
  - done.
  - unfold truthy_string. destruct (String.eqb s ""); done.
Qed.

(** X22.  The older page has no local store.  Its submit never reads or
    writes the storage, on any path; and without an endpoint it does
    nothing but raise the configuration warning, whatever the form
    holds, the check of the endpoint coming before validation. *)
Theorem FinanceTracker_no_local_store (post get : FetchResult) (w : World) :
  let w' := FinanceTracker.handleSubmit sheetUrl post get w in
  localStorage w' = localStorage w
  ∧ (∀ key, GetItem key ∈ trace w' → GetItem key ∈ trace w)
  ∧ (∀ key value, SetItem key value ∈ trace w' → SetItem key value ∈ trace w)
  ∧ (endpoint sheetUrl = None →
     w' = perform (SwalFire "Config Error" "Sheet URL missing" "warning") w).
Proof.
  intros w'. subst w'. unfold FinanceTracker.handleSubmit.
  destruct (endpoint sheetUrl) as [url|] eqn:E.
  2:{ split; [done|]. split; [|split; [|done]].
      - intros key. simpl. rewrite elem_of_app.
        intros [?|Hin]; [done|]. apply list_elem_of_singleton in Hin. done.
      - intros key value. simpl. rewrite elem_of_app.
        intros [?|Hin]; [done|]. apply list_elem_of_singleton in Hin. done. }
  destruct (FinanceTracker.rejected (form w)).
  { split; [done|]. split; [|split; [|done]].
    - intros key. simpl. rewrite elem_of_app.
      intros [?|Hin]; [done|]. apply list_elem_of_singleton in Hin. done.
    - intros key value. simpl. rewrite elem_of_app.
      intros [?|Hin]; [done|]. apply list_elem_of_singleton in Hin. done. }
  assert (∀ w0,
            localStorage (default (perform (Fetch url None) w0)
                            (FinanceTracker.fetchData sheetUrl get w0))
            = localStorage w0
            ∧ ∃ added,
                trace (default (perform (Fetch url None) w0)
                         (FinanceTracker.fetchData sheetUrl get w0))
                = trace w0 ++ added
                ∧ Forall (λ e, ∃ u, e = Fetch u None) added) as Hreload.
  { intros w0. unfold FinanceTracker.fetchData. rewrite E.
    destruct get as [|ok body]; simpl.
    - split; [done|]. exists [Fetch url None]. split; [done|].
      constructor; [by eexists|constructor].
    - destruct (JSON_parse body); simpl.
      + split; [done|]. exists [Fetch url None]. split; [done|].
        constructor; [by eexists|constructor].
      + split; [done|]. exists [Fetch url None]. split; [done|].
        constructor; [by eexists|constructor]. }
  destruct post as [|[|] body].
  - split; [done|]. split; [|split; [|done]].
    + intros key. simpl. rewrite !elem_of_app.
      intros [[?|Hin]|Hin]; [done| |]; apply list_elem_of_singleton in Hin; done.
    + intros key value. simpl. rewrite !elem_of_app.
      intros [[?|Hin]|Hin]; [done| |]; apply list_elem_of_singleton in Hin; done.
  - cbn [remote_append].
    match goal with
    | |- context [FinanceTracker.fetchData sheetUrl get ?w0] =>
        destruct (Hreload w0) as (Hls & added & Htr & Hadded)
    end.
    rewrite Forall_forall in Hadded.
    split; [cbn [localStorage setSubmitting]; by rewrite Hls|].
    split; [|split; [|done]].
    + intros key. cbn [trace setSubmitting]. rewrite Htr. simpl.
      rewrite !elem_of_app.
      intros [[[?|Hin]|Hin]|Hin]; [done| | |].
      * apply list_elem_of_singleton in Hin. done.
      * apply list_elem_of_singleton in Hin. done.
      * destruct (Hadded _ Hin) as [? ?]; done.
    + intros key value. cbn [trace setSubmitting]. rewrite Htr. simpl.
      rewrite !elem_of_app.
      intros [[[?|Hin]|Hin]|Hin]; [done| | |].
      * apply list_elem_of_singleton in Hin. done.
      * apply list_elem_of_singleton in Hin. done.
      * destruct (Hadded _ Hin) as [? ?]; done.
  - split; [done|]. split; [|split; [|done]].
    + intros key. simpl. rewrite !elem_of_app.
      intros [[?|Hin]|Hin]; [done| |]; apply list_elem_of_singleton in Hin; done.
    + intros key value. simpl. rewrite !elem_of_app.
      intros [[?|Hin]|Hin]; [done| |]; apply list_elem_of_singleton in Hin; done.
Qed.

(** X23.  On the older page a saved entry can stay out of sight.  When
    the POST is answered OK and the reload that follows fails, the entry
    is on the remote sheet and reported as saved, the form is cleared,
    and the rows on display are the old ones: the reload is not awaited
    and has no fallback. *)
Theorem FinanceTracker_failed_reload_keeps_rows (url body : string)
    (get : FetchResult) (w : World) :
  endpoint sheetUrl = Some url →
  FinanceTracker.rejected (form w) = false →
  read_fails get = true →
  let w' := FinanceTracker.handleSubmit sheetUrl (Resolves true body) get w in
  rows w' = rows w
  ∧ form w' = empty
  ∧ submitting w' = false
  ∧ sheet w' = sheet w ++ [form_data (rows w) (form w)]
  ∧ trace w'
    = trace w ++ [Fetch url (Some (form_data (rows w) (form w)));
                  SwalFire "Saved" "Transaction added" "success";
                  Fetch url None].
Proof.
  intros E Hvalid Hfail w'. subst w'. unfold FinanceTracker.handleSubmit.
  rewrite E, Hvalid.
  match goal with
  | |- context [FinanceTracker.fetchData sheetUrl get ?w0] =>
      rewrite (FinanceTracker_fetchData_fails sheetUrl url get w0 E Hfail)
  end.
  simpl. by rewrite <- !app_assoc.
Qed.

(** X24.  Where the endpoint answers, the two pages submit alike.  With
    an endpoint configured and a form both guards treat the same way,
    the submit of the older page and the submit of the newer page lead
    to the same world, effects included, whenever the write fails or
    the reload that follows is answered with a list: the local store of
    the newer page only shows when a read fails. *)
Theorem pages_agree_online (url : string) (post get : FetchResult)
    (w : World) :
  endpoint sheetUrl = Some url →
  FinanceTracker.rejected (form w) = rejected (form w) →
  write_fails post = true ∨ read_fails get = false →
  FinanceTracker.handleSubmit sheetUrl post get w
  = handleSubmit sheetUrl post get w.
Proof.
  intros E Hrej Hcase.
  unfold FinanceTracker.handleSubmit, handleSubmit. rewrite E, Hrej.
  destruct (rejected (form w)); [done|].
  destruct post as [|[|] body]; [done| |done].
  destruct Hcase as [Hw|Hr]; [done|].
  destruct get as [|ok answer]; [done|].
  simpl in Hr. apply bool_decide_eq_false in Hr.
  unfold FinanceTracker.fetchData, fetchData. rewrite E.
  destruct (JSON_parse answer) as [data|]; [done|]. by destruct Hr.
Qed.

End FinanceTrackerMore.

(** ** The further properties at concrete ledgers *)

Section MoreScenarios.
Import Scenario.

Lemma final_balance_permutation_witness :
  [in100; out30; out5] ≡ₚ [out30; in100; out5]
  ∧ (absolute_total [in100; out30; out5] ≤ 2 ^ 53)%Z
  ∧ Binary64.currentBalance [in100; out30; out5]
    = Binary64.currentBalance [out30; in100; out5].
Proof.
  assert (absolute_total [in100; out30; out5] ≤ 2 ^ 53)%Z as Hbound
    by (vm_compute; discriminate).
  split; [apply perm_swap|]. split; [exact Hbound|].
  exact (final_balance_permutation _ _ (perm_swap out30 in100 [out5]) Hbound).
Defined.

Lemma summaries_of_normalized_witness :
  let raw := [in100; out30; out5] in
  Forall (λ r, toUpperCase (type r) = type r) raw
  ∧ (absolute_total raw ≤ 2 ^ 53)%Z
  ∧ Binary64.totalIn raw = Binary64.of_Z 100
  ∧ Binary64.totalOut raw = Binary64.of_Z 35
  ∧ Binary64.currentBalance raw
    = Binary64.sub (Binary64.totalIn raw) (Binary64.totalOut raw).
Proof.
  assert (Forall (λ r, toUpperCase (type r) = type r) [in100; out30; out5])
    as Hup by (repeat constructor).
  assert (absolute_total [in100; out30; out5] ≤ 2 ^ 53)%Z as Hbound
    by (vm_compute; discriminate).
  split; [exact Hup|]. split; [exact Hbound|].
  exact (summaries_of_normalized [in100; out30; out5] Hup Hbound).
Defined.

Lemma persistLocal_frame_witness :
  let w := setLocalStorage {[ "theme" := "dark" ]} initial in
  "theme" ≠ LS_KEY
  ∧ localStorage w !! "theme" = Some "dark"
  ∧ localStorage (persistLocal [in100] w) !! "theme" = localStorage w !! "theme".
Proof.
  assert ("theme" ≠ LS_KEY) as Hkey by discriminate.
  split; [exact Hkey|]. split; [vm_compute; reflexivity|].
  exact (proj1 (persistLocal_frame [in100]
                  (setLocalStorage {[ "theme" := "dark" ]} initial)
                  "theme" Hkey)).
Defined.

Lemma persistLocal_overwrites_witness :
  setItem_ok LS_KEY (JSON_stringify [in100; out30]) = true
  ∧ (loadLocal (persistLocal [in100; out30] (persistLocal [out5] initial))).1
    = (loadLocal (persistLocal [in100; out30] initial)).1.
Proof.
  split; [reflexivity|].
  exact (proj2 (persistLocal_overwrites [out5] [in100; out30] initial eq_refl)).
Defined.

Lemma persistLocal_failure_is_silent_witness :
  let w := @persistLocal ascii_runtime [in100] initial in
  @setItem_ok (quota_runtime 16) LS_KEY
    (@JSON_stringify (quota_runtime 16) [in100; out30]) = false
  ∧ localStorage (@persistLocal (quota_runtime 16) [in100; out30] w)
    = localStorage w.
Proof.
  split; [vm_compute; reflexivity|].
  refine (proj1 (@persistLocal_failure_is_silent (quota_runtime 16)
                   [in100; out30] (@persistLocal ascii_runtime [in100] initial)
                   _)).
  vm_compute; reflexivity.
Defined.

Lemma handleSubmit_local_no_network_witness :
  let w := showing [in100; out30] (entry "2025-02-01" "IN" (AmtStr "50")) in
  endpoint None = None
  ∧ handleSubmit None (Resolves true "") (Resolves true "[]") w
    = handleSubmit None Rejects Rejects w
  ∧ sheet (handleSubmit None (Resolves true "") (Resolves true "[]") w)
    = sheet w.
Proof.
  split; [reflexivity|].
  pose proof
    (handleSubmit_local_no_network None (Resolves true "") (Resolves true "[]")
       (showing [in100; out30] (entry "2025-02-01" "IN" (AmtStr "50")))
       eq_refl) as (Hsame & Hsheet & _).
  exact (conj Hsame Hsheet).
Defined.

Lemma handleSubmit_remote_no_store_witness :
  let w := stored [in100; out30] (entry "2025-02-01" "IN" (AmtStr "50")) in
  endpoint remote = Some "https://sheet.example/exec"
  ∧ localStorage (handleSubmit remote (Resolves true "") Rejects w)
    = localStorage w.
Proof.
  split; [reflexivity|].
  exact (proj1
    (handleSubmit_remote_no_store remote "https://sheet.example/exec"
       (Resolves true "") Rejects
       (stored [in100; out30] (entry "2025-02-01" "IN" (AmtStr "50")))
       eq_refl)).
Defined.

Lemma handleSubmit_local_in_sync_witness :
  let w := showing [in100; out30] (entry "2025-02-01" "IN" (AmtStr "50")) in
  let w' := handleSubmit None Rejects Rejects w in
  endpoint None = None
  ∧ rejected (form w) = false
  ∧ setItem_ok LS_KEY (JSON_stringify (reverse (rows w'))) = true
  ∧ JSON_parse (JSON_stringify (reverse (rows w'))) = Some (reverse (rows w'))
  ∧ (loadLocal w').1 = reverse (rows w').
Proof.
  split; [reflexivity|]. split; [reflexivity|]. split; [reflexivity|].
  split; [vm_compute; reflexivity|].
  refine (proj1
    (handleSubmit_local_in_sync None Rejects Rejects
       (showing [in100; out30] (entry "2025-02-01" "IN" (AmtStr "50")))
       eq_refl eq_refl eq_refl _)).
  vm_compute; reflexivity.
Defined.

Lemma handleSubmit_local_reload_agrees_witness :
  let w := showing [in100; out30] (entry "2025-02-01" "IN" (AmtStr "50")) in
  let w' := handleSubmit None Rejects Rejects w in
  endpoint None = None
  ∧ rows w = reverse (normalize [in100; out30])
  ∧ rejected (form w) = false
  ∧ toUpperCase (type (form w)) = type (form w)
  ∧ Number (amount (form w)) = Num 50
  ∧ setItem_ok LS_KEY (JSON_stringify (reverse (rows w'))) = true
  ∧ JSON_parse (JSON_stringify (reverse (rows w'))) = Some (reverse (rows w'))
  ∧ rows (fetchData None Rejects w') = rows w'.
Proof.
  split; [reflexivity|]. split; [reflexivity|]. split; [reflexivity|].
  split; [reflexivity|]. split; [vm_compute; reflexivity|].
  split; [reflexivity|]. split; [vm_compute; reflexivity|].
  refine (proj1
    (handleSubmit_local_reload_agrees None [in100; out30] 50
       Rejects Rejects Rejects
       (showing [in100; out30] (entry "2025-02-01" "IN" (AmtStr "50")))
       eq_refl eq_refl eq_refl eq_refl _ eq_refl _));
    vm_compute; reflexivity.
Defined.

Lemma handleDelete_throws_iff_witness :
  let w := showing [in100; out30] empty in
  (length (rows w) ≤ 2)%nat
  ∧ handleDelete 2 true w = None.
Proof.
  assert (length (rows (showing [in100; out30] empty)) ≤ 2)%nat as Hlen
    by (vm_compute; lia).
  split; [exact Hlen|].
  exact (proj2 (handleDelete_throws_iff 2 true
                  (showing [in100; out30] empty)) Hlen).
Defined.

Lemma handleDelete_local_only_witness :
  let w := stored [in100; out30; out5] empty in
  let w' := default w (handleDelete 1 true w) in
  let body := JSON_stringify [in100; out30; out5] in
  handleDelete 1 true w = Some w'
  ∧ endpoint remote = Some "https://sheet.example/exec"
  ∧ JSON_parse body = Some [in100; out30; out5]
  ∧ sheet w' = sheet w
  ∧ rows (fetchData remote (Resolves true body) w')
    = rows (fetchData remote (Resolves true body) w).
Proof.
  split; [vm_compute; reflexivity|]. split; [reflexivity|].
  split; [vm_compute; reflexivity|].
  assert (handleDelete 1 true (stored [in100; out30; out5] empty)
          = Some (default (stored [in100; out30; out5] empty)
                    (handleDelete 1 true (stored [in100; out30; out5] empty))))
    as Hdel by (vm_compute; reflexivity).
  pose proof (handleDelete_local_only remote 1 true _ _ Hdel)
    as (Hsheet & _ & _ & _ & Hreload).
  split; [exact Hsheet|].
  refine (Hreload "https://sheet.example/exec" true
            (JSON_stringify [in100; out30; out5]) [in100; out30; out5]
            eq_refl _).
  vm_compute; reflexivity.
Defined.

Lemma handleDelete_then_reload_witness :
  let w := stored [in100; out30; out5] empty in
  let w' := default w (handleDelete 1 true w) in
  endpoint None = None
  ∧ rows w = reverse (normalize [in100; out30; out5])
  ∧ handleDelete 1 true w = Some w'
  ∧ setItem_ok LS_KEY (JSON_stringify (reverse (rows w'))) = true
  ∧ JSON_parse (JSON_stringify (reverse (rows w'))) = Some (reverse (rows w'))
  ∧ rows (fetchData None Rejects w') = reverse (normalize [in100; out5])
  ∧ (balance <$> rows (fetchData None Rejects w'))
    = [Some (Num 95); Some (Num 100)].
Proof.
  split; [reflexivity|]. split; [vm_compute; reflexivity|].
  assert (handleDelete 1 true (stored [in100; out30; out5] empty)
          = Some (default (stored [in100; out30; out5] empty)
                    (handleDelete 1 true (stored [in100; out30; out5] empty))))
    as Hdel by (vm_compute; reflexivity).
  split; [exact Hdel|]. split; [reflexivity|].
  split; [vm_compute; reflexivity|].
  split; [|vm_compute; reflexivity].
  refine (proj2
    (handleDelete_then_reload None [in100; out30; out5] 1 Rejects _ _
       eq_refl _ Hdel eq_refl _)); vm_compute; reflexivity.
Defined.

Lemma handleDelete_stale_balances_witness :
  let w := stored [in100; out30; out5] empty in
  let w' := default w (handleDelete 1 true w) in
  handleDelete 1 true w = Some w'
  ∧ (balance <$> rows w') = [Some (Num 65); Some (Num 100)]
  ∧ currentBalance (rows w') = currentBalance (rows w).
Proof.
  assert (handleDelete 1 true (stored [in100; out30; out5] empty)
          = Some (default (stored [in100; out30; out5] empty)
                    (handleDelete 1 true (stored [in100; out30; out5] empty))))
    as Hdel by (vm_compute; reflexivity).
  split; [exact Hdel|].
  pose proof (handleDelete_stale_balances 1 _ _ Hdel) as [Hbal Hcur].
  split; [exact Hbal|]. apply Hcur. discriminate.
Defined.

Lemma csv_row_unambiguous_witness :
  let r1 := entry "2025-01-02" "OUT" (AmtNum NaN) in
  let r2 := {| date := "2025-01-02"; name := ""; description := "";
               type := "OUT"; amount := AmtStr "abc"; balance := Some NaN |} in
  csv_row r1 = csv_row r2
  ∧ r1 ≠ r2
  ∧ type r1 = type r2.
Proof.
  assert (csv_row (entry "2025-01-02" "OUT" (AmtNum NaN))
          = csv_row {| date := "2025-01-02"; name := ""; description := "";
                       type := "OUT"; amount := AmtStr "abc";
                       balance := Some NaN |}) as Heq
    by (vm_compute; reflexivity).
  split; [exact Heq|]. split; [discriminate|].
  exact (proj1 (proj2 (proj2 (proj2 (csv_row_unambiguous _ _ Heq))))).
Defined.

Lemma FinanceTracker_no_local_store_witness :
  let w := stored [in100; out30] (entry "2025-02-01" "IN" (AmtStr "50")) in
  endpoint None = None
  ∧ FinanceTracker.handleSubmit None Rejects Rejects w
    = perform (SwalFire "Config Error" "Sheet URL missing" "warning") w
  ∧ localStorage
      (FinanceTracker.handleSubmit remote (Resolves true "") Rejects w)
    = localStorage w.
Proof.
  split; [reflexivity|]. split.
  - exact (proj2 (proj2 (proj2
      (FinanceTracker_no_local_store None Rejects Rejects
         (stored [in100; out30] (entry "2025-02-01" "IN" (AmtStr "50"))))))
      eq_refl).
  - exact (proj1
      (FinanceTracker_no_local_store remote (Resolves true "") Rejects
         (stored [in100; out30] (entry "2025-02-01" "IN" (AmtStr "50"))))).
Defined.

Lemma FinanceTracker_failed_reload_keeps_rows_witness :
  let w := showing [in100; out30] (entry "2025-02-01" "IN" (AmtStr "50")) in
  let w' := FinanceTracker.handleSubmit remote (Resolves true "") Rejects w in
  endpoint remote = Some "https://sheet.example/exec"
  ∧ FinanceTracker.rejected (form w) = false
  ∧ read_fails Rejects = true
  ∧ rows w' = rows w
  ∧ form w' = empty.
Proof.
  split; [reflexivity|]. split; [reflexivity|]. split; [reflexivity|].
  pose proof
    (FinanceTracker_failed_reload_keeps_rows remote
       "https://sheet.example/exec" "" Rejects
       (showing [in100; out30] (entry "2025-02-01" "IN" (AmtStr "50")))
       eq_refl eq_refl eq_refl) as (Hrows & Hform & _).
  exact (conj Hrows Hform).
Defined.

Lemma pages_agree_online_witness :
  let w := showing [in100; out30] (entry "2025-02-01" "IN" (AmtStr "50")) in
  let get := Resolves true (JSON_stringify [in100; out30]) in
  endpoint remote = Some "https://sheet.example/exec"
  ∧ FinanceTracker.rejected (form w) = rejected (form w)
  ∧ read_fails get = false
  ∧ FinanceTracker.handleSubmit remote (Resolves true "") get w
    = handleSubmit remote (Resolves true "") get w.
Proof.
  split; [reflexivity|]. split; [reflexivity|].
  assert (read_fails (Resolves true (JSON_stringify [in100; out30])) = false)
    as Hread by (vm_compute; reflexivity).
  split; [exact Hread|].
  exact (pages_agree_online remote "https://sheet.example/exec"
           (Resolves true "") _
           (showing [in100; out30] (entry "2025-02-01" "IN" (AmtStr "50")))
           eq_refl eq_refl (or_intror Hread)).
Defined.

End MoreScenarios.
